(** * nvme-huawei: the Hi-Si NVME image reader, embedded in Rocq

    A shallow embedding of [nvme-huawei.py].  Python [bytes] are lists of
    [Byte.byte], Python [str] is [string], Python [int] is [Z].  A call that
    may raise returns a [result]; code that works on an open file or prints
    runs in a small state-and-exception monad, so that what a failed
    statement did to the state (a file cursor that moved) is still there in
    the [except] clause. *)

From Stdlib Require Import ZArith List Bool Ascii String Lia.
From Stdlib Require Import Strings.Byte.
From Stdlib Require Import DecimalString.
Import ListNotations.

Local Open Scope string_scope.
Local Open Scope list_scope.
Local Open Scope Z_scope.

(** ** Exceptions and results *)

(** The exceptions the program can meet.  [RuntimeError] is the only one the
    program raises itself, always with a message; the others come from the
    Python runtime. *)
Inductive exn : Type :=
| RuntimeError (msg : string)
| TypeError
| ValueError
| UnicodeDecodeError
| OSError (errno : Z)
| FileNotFoundError
| UnboundLocalError
| SystemExit (code : Z).

Inductive result (A : Type) : Type :=
| Ok (a : A)
| Raise (e : exn).
Arguments Ok {A} a.
Arguments Raise {A} e.

Definition is_TypeError (e : exn) : bool :=
  match e with TypeError => true | _ => false end.
Definition is_ValueError (e : exn) : bool :=
  match e with ValueError => true | _ => false end.
Definition is_UnicodeDecodeError (e : exn) : bool :=
  match e with UnicodeDecodeError => true | _ => false end.

(** [EINVAL], the errno of a seek to a negative position. *)
Definition EINVAL : Z := 22.

(** ** The state-and-exception monad

    [M S A]: a computation over a state [S] that returns an [A] or raises.
    The state survives an exception. *)
Definition M (S A : Type) : Type := S -> result A * S.

Definition ret {S A} (a : A) : M S A := fun s => (Ok a, s).
Definition raise {S A} (e : exn) : M S A := fun s => (Raise e, s).
Definition lift {S A} (r : result A) : M S A := fun s => (r, s).
Definition bind {S A B} (m : M S A) (k : A -> M S B) : M S B :=
  fun s => match m s with
           | (Ok a, s') => k a s'
           | (Raise e, s') => (Raise e, s')
           end.

(** [try m except E: h] *)
Definition try_except {S A} (m : M S A) (E : exn -> bool) (h : M S A) : M S A :=
  fun s => match m s with
           | (Raise e, s') => if E e then h s' else (Raise e, s')
           | r => r
           end.

Declare Scope py_scope.
Delimit Scope py_scope with py.
Notation "x <- m ;; k" := (bind m (fun x => k))
  (at level 61, m at next level, right associativity) : py_scope.
Notation "m ;;; k" := (bind m (fun _ => k))
  (at level 61, right associativity) : py_scope.

(** The pure fragment: [result] alone, for functions that touch no state. *)
Definition rbind {A B} (r : result A) (k : A -> result B) : result B :=
  match r with Ok a => k a | Raise e => Raise e end.

Definition rtry {A} (r : result A) (E : exn -> bool) (h : result A) : result A :=
  match r with
  | Raise e => if E e then h else Raise e
  | _ => r
  end.

(** ** Bytes and strings *)

Definition bytes : Type := list byte.

Definition len_bytes (b : bytes) : Z := Z.of_nat (List.length b).
Definition len_str (s : string) : Z := Z.of_nat (String.length s).

Definition byte_eqb (a b : byte) : bool := Byte.eqb a b.

Fixpoint bytes_eqb (a b : bytes) : bool :=
  match a, b with
  | [], [] => true
  | x :: a', y :: b' => byte_eqb x y && bytes_eqb a' b'
  | _, _ => false
  end.

(** [startswith sub data]: [data[0:len(sub)] == sub]. *)
Fixpoint startswith (sub data : bytes) : bool :=
  match sub, data with
  | [], _ => true
  | x :: sub', y :: data' => byte_eqb x y && startswith sub' data'
  | _ :: _, [] => false
  end.

(** [find_from sub data i]: the search of [bytes.find] over the rest [data]
    of a buffer, whose first byte has index [i]. *)
Fixpoint find_from (sub data : bytes) (i : Z) : Z :=
  if startswith sub data then i
  else match data with
       | [] => -1
       | _ :: data' => find_from sub data' (i + 1)
       end.

(** [data.find(sub)]: the lowest index where [sub] occurs, or [-1]. *)
Definition bytes_find (data sub : bytes) : Z := find_from sub data 0.

(** The values [get_value_offset] is called with: a [bytes] object or a
    [str]. *)
Inductive pyval : Type :=
| VBytes (b : bytes)
| VStr (s : string).

(** [data.find(value)]: a [str] argument is a [TypeError]. *)
Definition find_value (data : bytes) (value : pyval) : result Z :=
  match value with
  | VBytes b => Ok (bytes_find data b)
  | VStr _ => Raise TypeError
  end.

(** *** [bytes.fromhex] *)

Definition is_space (c : ascii) : bool :=
  let n := N_of_ascii c in
  (N.eqb n 32 || (N.leb 9 n && N.leb n 13))%bool.

Definition hex_digit_value (c : ascii) : option N :=
  let n := N_of_ascii c in
  if (N.leb 48 n && N.leb n 57)%bool then Some (n - 48)%N
  else if (N.leb 97 n && N.leb n 102)%bool then Some (n - 87)%N
  else if (N.leb 65 n && N.leb n 70)%bool then Some (n - 55)%N
  else None.

Definition byte_of_N (n : N) : byte :=
  match Byte.of_N n with Some b => b | None => x00 end.

(** Two hex digits make a byte; white space is skipped between bytes; anything
    else, or a digit left alone, is a [ValueError]. *)
Fixpoint fromhex_chars (s : list ascii) : result bytes :=
  match s with
  | [] => Ok []
  | c :: t =>
      if is_space c then fromhex_chars t
      else match hex_digit_value c with
           | None => Raise ValueError
           | Some top =>
               match t with
               | [] => Raise ValueError
               | d :: t' =>
                   match hex_digit_value d with
                   | None => Raise ValueError
                   | Some bot =>
                       rbind (fromhex_chars t')
                             (fun r => Ok (byte_of_N (top * 16 + bot) :: r))
                   end
               end
           end
  end.

Definition fromhex (s : string) : result bytes :=
  fromhex_chars (list_ascii_of_string s).

(** [bytes.fromhex] takes a [str] only. *)
Definition fromhex_value (value : pyval) : result bytes :=
  match value with
  | VStr s => fromhex s
  | VBytes _ => Raise TypeError
  end.

(** ** Constants *)

Definition MAGIC : string := "486973692D4E562D506172746974696F6E".
Definition MAX_GAP : Z := 20.
Definition STRING_LENGHT : Z := 45.

(** The catalog, in insertion order. *)
Definition VALUES : list (string * string) :=
  [ ("53575645525349", "SWVERSI");
    ("424F4152444944", "BOARDID");
    ("534E", "SN");
    ("4D414341444452", "MACADDR");
    ("4D44415445", "MDATE");
    ("4553575652", "ESWVR");
    ("4953575652", "ISWVR");
    ("4548575652", "EHWVR");
    ("4948575652", "IHWVR");
    ("544D4D49", "TMMI");
    ("4D4143574C414E", "MACWLAN");
    ("4D41434254", "MACBT");
    ("57564C4F434B", "WVLOCK");
    ("57564445564944", "WVDEVID");
    ("48494D4E544E", "HIMNTN");
    ("44554D5043544C", "DUMPCTL");
    ("4652504B4559", "FRPKEY");
    ("53504B5F5041", "SPK_PA");
    ("4249444241434B", "BIDBACK");
    ("5450434F4C4F52", "TPCOLOR") ].

Definition keys (d : list (string * string)) : list string := map fst d.

(** ** [get_value_offset] and [get_gap_num] *)

Definition msg_too_short : string := "Given data is too short!".
Definition msg_bad_type : string :=
  "Could not determine the type of the given value!".

Definition get_value_offset (data : bytes) (value : pyval) : result Z :=
  if len_bytes data <=? 0 then Raise (RuntimeError msg_too_short)
  else
    rtry (find_value data value) is_TypeError
      (rtry (rbind (fromhex_value value) (fun b => Ok (bytes_find data b)))
            is_ValueError
            (Raise (RuntimeError msg_bad_type))).

Definition get_gap_num (str : string) : result Z :=
  let _GAP_NUMBER_ := MAX_GAP - len_str str in
  Ok _GAP_NUMBER_.

(** ** Files

    An open binary file: its content and the cursor.  [read] past the end is
    a short read; [seek] to a negative position is an [OSError].  The
    positions are the offsets of a file, signed 64-bit integers
    ([in_offset_range]): an integer outside that range is refused by Python
    with a [ValueError] before any seek, a case [seek] leaves out and the
    statements over arbitrary positions exclude. *)
Record file : Type := mkfile { content : bytes; pos : Z }.



Definition slice (b : bytes) (from n : Z) : bytes :=
  firstn (Z.to_nat n) (skipn (Z.to_nat from) b).

Definition seek (p : Z) : M file Z :=
  fun fp => if p <? 0 then (Raise (OSError EINVAL), fp)
            else (Ok p, mkfile (content fp) p).

Definition read (n : Z) : M file bytes :=
  fun fp => let r := slice (content fp) (pos fp) n in
            (Ok r, mkfile (content fp) (pos fp + len_bytes r)).

Definition read_all : M file bytes :=
  fun fp => let r := skipn (Z.to_nat (pos fp)) (content fp) in
            (Ok r, mkfile (content fp) (pos fp + len_bytes r)).

(** ** Codecs *)

Inductive errors : Type := strict | ignore.

Definition is_ascii_byte (b : byte) : bool := (Byte.to_N b <? 128)%N.

(** [b.decode('ascii', errors)] *)
Fixpoint decode_ascii (e : errors) (b : bytes) : result string :=
  match b with
  | [] => Ok ""
  | x :: t =>
      if is_ascii_byte x
      then rbind (decode_ascii e t) (fun s => Ok (String (ascii_of_byte x) s))
      else match e with
           | strict => Raise UnicodeDecodeError
           | ignore => decode_ascii e t
           end
  end.

Definition quote1 : ascii := ascii_of_N 39.
Definition quote2 : ascii := ascii_of_N 34.
Definition backslash : ascii := ascii_of_N 92.

Definition hex_char (n : N) : ascii :=
  if (n <? 10)%N then ascii_of_N (48 + n) else ascii_of_N (87 + n).

Definition char (c : ascii) : string := String c "".

Definition repr_byte (quote : ascii) (b : byte) : string :=
  let c := ascii_of_byte b in
  let n := Byte.to_N b in
  if (Ascii.eqb c quote || Ascii.eqb c backslash)%bool
  then String backslash (char c)
  else if (n =? 9)%N then String backslash "t"
  else if (n =? 10)%N then String backslash "n"
  else if (n =? 13)%N then String backslash "r"
  else if ((n <? 32) || (127 <=? n))%N%bool
  then String backslash
         (String "x" (String (hex_char (n / 16)) (char (hex_char (n mod 16)))))
  else char c.

Definition has_byte (c : ascii) (b : bytes) : bool :=
  existsb (fun x => Ascii.eqb (ascii_of_byte x) c) b.

(** [str(b)] for a [bytes] object: its [repr]. *)
Definition bytes_repr (b : bytes) : string :=
  let quote := if (has_byte quote1 b && negb (has_byte quote2 b))%bool
               then quote2 else quote1 in
  (String "b" (char quote) ++
   String.concat "" (map (repr_byte quote) b) ++ char quote)%string.

(** [str(n)] for an [int]. *)
Definition str_of_int (n : Z) : string := NilZero.string_of_int (Z.to_int n).

(** [re.search('[a-z0-9]', s, re.IGNORECASE)] finds something. *)
Definition is_alnum (c : ascii) : bool :=
  let n := N_of_ascii c in
  ((N.leb 97 n && N.leb n 122) || (N.leb 65 n && N.leb n 90)
   || (N.leb 48 n && N.leb n 57))%bool.

Definition search_alnum (s : string) : bool :=
  existsb is_alnum (list_ascii_of_string s).

Section Filesystem.

(** The files of the machine: a path names a content, or nothing. *)
Variable fs : string -> option bytes.

(** [with open(image, "rb") as fp: body] *)
Definition with_open {A} (image : string) (body : M file A) : result A :=
  match fs image with
  | None => Raise FileNotFoundError
  | Some c => fst (body (mkfile c 0))
  end.

Definition header_literal : bytes := list_byte_of_string "Hisi-NV-Partition".

(** The test that follows the [with] block of [parse_null_bytes]. *)
Definition check_header (_OFFSET_ : Z) (_HDR_ : bytes) : result Z :=
  if negb (bytes_eqb _HDR_ header_literal)
  then Raise (RuntimeError
                ("Expected " ++ MAGIC ++ " but got " ++ bytes_repr _HDR_ ++ "!")%string)
  else Ok _OFFSET_.

Definition parse_null_bytes (image : string) : result Z :=
  rbind
    (with_open image
       (_DATA_ <- read_all ;;
        _OFFSET_ <- lift (get_value_offset _DATA_ (VStr MAGIC)) ;;
        seek _OFFSET_ ;;;
        _HDR_ <- read 17 ;;
        ret (_OFFSET_, _HDR_))%py)
    (fun '(_OFFSET_, _HDR_) => check_header _OFFSET_ _HDR_).

(** One step of the decoding chain: read the next [STRING_LENGHT] bytes at
    the cursor and decode them. *)
Definition read_decode (e : errors) : M file string :=
  (b <- read STRING_LENGHT ;; lift (decode_ascii e b))%py.

Definition read_repr : M file string :=
  (b <- read STRING_LENGHT ;; ret (bytes_repr b))%py.

(** The test that follows the [with] block of [parse_string]. *)
Definition null_filter (_VALUE_ : string) : string :=
  if (negb (search_alnum _VALUE_) || (_VALUE_ =? "")%string)%bool
  then "NULL" else _VALUE_.

Definition parse_string_body (offset gap buf : Z) : M file string :=
  (seek (offset + buf + gap) ;;;
   try_except (read_decode strict) is_UnicodeDecodeError
     (try_except (read_decode ignore) is_UnicodeDecodeError
        read_repr))%py.

Definition parse_string (offset gap : Z) (image : string) (buf : Z)
  : result string :=
  rbind (with_open image (parse_string_body offset gap buf))
        (fun _VALUE_ => Ok (null_filter _VALUE_)).

End Filesystem.

(** ** The command line *)

(** Standard output: the arguments of the [print] calls, in order. *)
Definition stdout : Type := list string.

Definition print (s : string) : M stdout unit :=
  fun out => (Ok tt, out ++ [s]).

Definition nl : string := char (ascii_of_N 10).

Definition help_text : string :=
  ("USAGE:" ++ nl ++
   "      -r nvme.img --> Read the nvme values." ++ nl ++
   "      -d (optional second arg) --> Print debug info (offset)." ++ nl ++
   "          ")%string.

Definition show_help : M stdout unit := print help_text.

Definition VERSION : string := "1.0".

Definition banner : string :=
  (nl ++ "Hi-Si NVME parser -- v" ++ VERSION ++ nl)%string.

(** [for x in l: body x] *)
Fixpoint for_each {S A} (l : list A) (body : A -> M S unit) : M S unit :=
  match l with
  | [] => ret tt
  | x :: t => (body x ;;; for_each t body)%py
  end.

Definition argv_at (argv : list string) (i : nat) : string := nth i argv "".
Definition len_argv (argv : list string) : Z := Z.of_nat (List.length argv).

(** [len(sys.argv) == 4 and sys.argv[2] == "-d"] *)
Definition debug_on (argv : list string) : bool :=
  ((len_argv argv =? 4) && (argv_at argv 2 =? "-d")%string)%bool.

(** [bytes.fromhex(key).decode('ascii')], the name a record is printed under. *)
Definition display_name (key : string) : result string :=
  rbind (fromhex key) (decode_ascii strict).

Definition normal_line (name res : string) : string :=
  (name ++ " = " ++ res)%string.

Definition debug_line (name res : string) (offset length : Z) : string :=
  (name ++ " = " ++ res ++ " (OFFSET = " ++ str_of_int offset
        ++ ") (LENGHT = " ++ str_of_int length ++ ")")%string.

Section Scan.

Variable fs : string -> option bytes.

(** The body of the loop of [main], steps 3.1 to 3.4. *)
Definition scan_entry (argv : list string) (_DATA_ : bytes) (_NVME_ : string)
           (_VALUE_ : string) : M stdout unit :=
  (_VALUE_OFFSET_ <- lift (get_value_offset _DATA_ (VStr _VALUE_)) ;;
   _VALUE_GAP_ <- lift (get_gap_num _VALUE_) ;;
   buf <- lift (rbind (fromhex _VALUE_) (fun b => Ok (len_bytes b))) ;;
   _VALUE_RES_ <- lift (parse_string fs _VALUE_OFFSET_ _VALUE_GAP_ _NVME_ buf) ;;
   if debug_on argv
   then name <- lift (display_name _VALUE_) ;;
        print (debug_line name _VALUE_RES_ _VALUE_OFFSET_ (len_str _VALUE_))
   else name <- lift (display_name _VALUE_) ;;
        print (normal_line name _VALUE_RES_))%py.

(** Step 3 of [main]: the loop over the keys of a catalog. *)
Definition scan (argv : list string) (_DATA_ : bytes) (_NVME_ : string)
           (catalog : list string) : M stdout unit :=
  for_each catalog (scan_entry argv _DATA_ _NVME_).

Definition main (argv : list string) : M stdout unit :=
  (print banner ;;;
   (if len_argv argv <? 3
    then print ("ERROR: Expected more arguments..." ++ nl)%string ;;;
         show_help ;;;
         raise (SystemExit 0)
    else ret tt) ;;;
   if (argv_at argv 1 =? "-r")%string
   then
     _NVME_ <- (if len_argv argv =? 4 then ret (argv_at argv 3)
                else if len_argv argv =? 3 then ret (argv_at argv 2)
                else raise UnboundLocalError) ;;
     _DATA_ <- lift (with_open fs _NVME_ read_all) ;;
     lift (parse_null_bytes fs _NVME_) ;;;
     scan argv _DATA_ _NVME_ (keys VALUES) ;;;
     print ""
   else
     print ("ERROR: Unknown option: " ++ argv_at argv 1 ++ nl)%string ;;;
     show_help)%py.

End Scan.

(** ** Test images *)

Definition zeros (n : nat) : bytes := repeat x00 n.
Definition ascii_bytes (s : string) : bytes := list_byte_of_string s.

(** A file system with one file. *)
Definition one_file (path : string) (c : bytes) : string -> option bytes :=
  fun p => if (p =? path)%string then Some c else None.

(** [SN] at offset 1000, 18 zero bytes, then [A1B2C3D4] null-padded to 45
    bytes; the partition header opens the image. *)
Definition sn_record : bytes :=
  ascii_bytes "SN" ++ zeros 18 ++ ascii_bytes "A1B2C3D4" ++ zeros 37.

Definition sn_image : bytes :=
  (ascii_bytes "Hisi-NV-Partition" ++ zeros 983) ++ sn_record ++ [].

(** A tag, then a field with a byte that is not ASCII in it, then the start of
    what follows the field. *)
Definition broken_field : bytes :=
  ascii_bytes "A1B2" ++ [xff] ++ ascii_bytes "C3D4" ++ zeros 36.

Definition broken_image : bytes :=
  ascii_bytes "SN" ++ zeros 16 ++ broken_field ++ ascii_bytes "NEXTRECORD".

Definition nuls (n : nat) : string :=
  string_of_list_ascii (repeat (ascii_of_N 0) n).

(** * Properties *)

(** ** The search *)

(** [sub] occurs in [data]. *)
Definition contains (sub data : bytes) : Prop :=
  exists pre post, data = pre ++ sub ++ post.

Lemma byte_eqb_eq (a b : byte) : byte_eqb a b = true <-> a = b.
Proof.
  unfold byte_eqb; split.
  - apply Byte.byte_dec_bl.
  - apply Byte.byte_dec_lb.
Qed.

Lemma bytes_eqb_eq (a b : bytes) : bytes_eqb a b = true <-> a = b.
Proof.
  revert b; induction a as [|x a IH]; intros [|y b]; simpl;
    try (split; [discriminate | congruence]).
  - tauto.
  - rewrite andb_true_iff, byte_eqb_eq, IH. split.
    + intros [-> ->]; reflexivity.
    + intros E; injection E; auto.
Qed.

Lemma startswith_app (sub data : bytes) :
  startswith sub data = true <-> exists post, data = sub ++ post.
Proof.
  revert data; induction sub as [|x sub IH]; intros data; simpl.
  - split; [intros _; exists data; reflexivity | reflexivity].
  - destruct data as [|y data].
    + split; [discriminate | intros [post E]; discriminate].
    + rewrite andb_true_iff, byte_eqb_eq, IH. split.
      * intros [-> [post ->]]. exists post; reflexivity.
      * intros [post E]. injection E as -> ->. split; [reflexivity | eauto].
Qed.

Lemma startswith_firstn (sub data : bytes) :
  startswith sub data = true -> firstn (List.length sub) data = sub.
Proof.
  intros H. apply startswith_app in H as [post ->].
  rewrite firstn_app, Nat.sub_diag, firstn_all. simpl. apply app_nil_r.
Qed.

(** What [find_from] returns: [-1] when [sub] starts nowhere in [data], and
    else the index of the first place where it starts. *)
Lemma find_from_spec (sub data : bytes) (i : Z) :
  (find_from sub data i = -1 /\
   forall m, (m <= List.length data)%nat -> startswith sub (skipn m data) = false)
  \/
  (exists n, (n <= List.length data)%nat /\
             find_from sub data i = i + Z.of_nat n /\
             startswith sub (skipn n data) = true /\
             forall m, (m < n)%nat -> startswith sub (skipn m data) = false).
Proof.
  revert i; induction data as [|x data IH]; intros i; simpl.
  - destruct (startswith sub []) eqn:E.
    + right. exists 0%nat. simpl. rewrite E. repeat split; try lia.
    + left. split; [reflexivity|]. intros [|m] Hm; simpl; auto.
  - destruct (startswith sub (x :: data)) eqn:E.
    + right. exists 0%nat. simpl. rewrite E. repeat split; try lia.
    + destruct (IH (i + 1)) as [[Hf Hn] | (n & Hle & Hf & Hs & Hn)].
      * left. split; [exact Hf|]. intros [|m] Hm; simpl; auto.
        apply Hn. simpl in Hm. lia.
      * right. exists (S n). simpl. repeat split; try lia; auto.
        intros [|m] Hm; simpl; auto. apply Hn. lia.
Qed.

Lemma contains_skipn (sub data : bytes) :
  contains sub data <->
  exists m, (m <= List.length data)%nat /\ startswith sub (skipn m data) = true.
Proof.
  split.
  - intros (pre & post & ->). exists (List.length pre). split.
    + rewrite length_app. lia.
    + rewrite skipn_app, Nat.sub_diag, skipn_all. simpl.
      apply startswith_app. eauto.
  - intros (m & _ & H). apply startswith_app in H as [post E].
    exists (firstn m data), post. rewrite <- E. symmetry. apply firstn_skipn.
Qed.

(** [find] answers [-1] exactly when there is no occurrence. *)
Lemma bytes_find_none (data sub : bytes) :
  bytes_find data sub = -1 <-> ~ contains sub data.
Proof.
  unfold bytes_find. rewrite contains_skipn.
  destruct (find_from_spec sub data 0) as [[Hf Hn] | (n & Hle & Hf & Hs & Hn)].
  - split; [|auto]. intros _ (m & Hm & H). rewrite Hn in H by assumption.
    discriminate.
  - split.
    + intros E. rewrite E in Hf. lia.
    + intros H. exfalso. apply H. eauto.
Qed.

(** A found offset is the first occurrence: [sub] is there and nowhere
    before. *)
Lemma bytes_find_found (data sub : bytes) (off : Z) :
  bytes_find data sub = off -> 0 <= off ->
  off <= len_bytes data /\
  startswith sub (skipn (Z.to_nat off) data) = true /\
  forall m, (m < Z.to_nat off)%nat -> startswith sub (skipn m data) = false.
Proof.
  unfold bytes_find, len_bytes. intros E Hoff.
  destruct (find_from_spec sub data 0) as [[Hf Hn] | (n & Hle & Hf & Hs & Hn)].
  - lia.
  - assert (off = Z.of_nat n) as -> by lia. rewrite Nat2Z.id.
    repeat split; auto. lia.
Qed.

Lemma bytes_find_range (data sub : bytes) :
  bytes_find data sub = -1 \/ 0 <= bytes_find data sub <= len_bytes data.
Proof.
  unfold bytes_find, len_bytes.
  destruct (find_from_spec sub data 0) as [[Hf Hn] | (n & Hle & Hf & Hs & Hn)].
  - left; assumption.
  - right. lia.
Qed.

(** ** Hex decoding and the offset of a tag *)

Lemma fromhex_chars_raises_bounded (n : nat) :
  forall s e, (List.length s <= n)%nat ->
              fromhex_chars s = Raise e -> e = ValueError.
Proof.
  induction n as [|n IH]; intros s e Hlen.
  - destruct s; [discriminate | simpl in Hlen; lia].
  - destruct s as [|c t]; [discriminate|]. simpl in Hlen. simpl.
    destruct (is_space c).
    + apply IH. lia.
    + destruct (hex_digit_value c); [|congruence].
      destruct t as [|d t']; [congruence|].
      destruct (hex_digit_value d); [|congruence].
      destruct (fromhex_chars t') eqn:E; simpl; [discriminate|].
      intros H; injection H as <-. apply (IH t'); [simpl in Hlen; lia | exact E].
Qed.

Lemma fromhex_raises (s : string) (e : exn) :
  fromhex s = Raise e -> e = ValueError.
Proof.
  unfold fromhex. apply (fromhex_chars_raises_bounded _ _ e (le_n _)).
Qed.

Lemma len_bytes_nonempty (data : bytes) :
  data <> [] -> (len_bytes data <=? 0) = false.
Proof.
  intros H. destruct data; [congruence|]. unfold len_bytes. simpl List.length.
  apply Z.leb_gt. lia.
Qed.

Lemma get_value_offset_bytes (data b : bytes) :
  data <> [] -> get_value_offset data (VBytes b) = Ok (bytes_find data b).
Proof.
  intros H. unfold get_value_offset. rewrite len_bytes_nonempty by assumption.
  reflexivity.
Qed.

Lemma get_value_offset_str (data : bytes) (s : string) :
  data <> [] ->
  get_value_offset data (VStr s) =
  match fromhex s with
  | Ok b => Ok (bytes_find data b)
  | Raise _ => Raise (RuntimeError msg_bad_type)
  end.
Proof.
  intros H. unfold get_value_offset. rewrite len_bytes_nonempty by assumption.
  simpl. destruct (fromhex s) eqn:E; simpl; [reflexivity|].
  apply fromhex_raises in E. subst. reflexivity.
Qed.

(** C5: an empty buffer is refused with the "too short" error whatever the
    tag is, valid or not, so the test comes before any search or decoding; a
    buffer that is not empty passes the test and the result is that of the
    search: the offset [find] gives for a [bytes] tag or for the bytes a hex
    string decodes to, and the "type" error for a string that is not hex. *)
Theorem get_value_offset_empty_check (data : bytes) (value : pyval) :
  (data = [] -> get_value_offset data value = Raise (RuntimeError msg_too_short))
  /\
  (data <> [] ->
   get_value_offset data value <> Raise (RuntimeError msg_too_short) /\
   match value with
   | VBytes b => get_value_offset data value = Ok (bytes_find data b)
   | VStr s =>
       (forall b, fromhex s = Ok b ->
                  get_value_offset data value = Ok (bytes_find data b)) /\
       (forall e, fromhex s = Raise e ->
                  get_value_offset data value = Raise (RuntimeError msg_bad_type))
   end).
Proof.
  split.
  - intros ->. reflexivity.
  - intros H. destruct value as [b|s].
    + rewrite get_value_offset_bytes by assumption. split; [discriminate | reflexivity].
    + rewrite get_value_offset_str by assumption.
      destruct (fromhex s) as [b|e]; (split; [discriminate|]); split;
        intros x E; try discriminate; congruence.
Qed.

Lemma get_value_offset_empty_check_witness :
  get_value_offset [] (VStr "zz") = Raise (RuntimeError msg_too_short) /\
  get_value_offset (ascii_bytes "xSN") (VStr "534E") = Ok 1.
Proof.
  split.
  - apply (proj1 (get_value_offset_empty_check [] (VStr "zz"))). reflexivity.
  - destruct (proj2 (get_value_offset_empty_check (ascii_bytes "xSN") (VStr "534E")))
      as [_ [H _]]; [discriminate|].
    apply (H (ascii_bytes "SN")). reflexivity.
Defined.

(** ** The gap *)

(** C3, as the code has it: the gap and the length of the string always add
    up to [MAX_GAP], and the function never raises; so the gap of a string
    longer than [MAX_GAP] is returned, and is negative. *)
Theorem get_gap_num_total (s : string) :
  exists g, get_gap_num s = Ok g /\
            g + len_str s = MAX_GAP /\
            (len_str s <= MAX_GAP <-> 0 <= g).
Proof.
  exists (MAX_GAP - len_str s). unfold get_gap_num.
  split; [reflexivity|]. split; lia.
Qed.

(** C3 fails as stated: a string of 21 characters gets the gap [-1] and no
    error. *)
Lemma get_gap_num_long_string :
  len_str "ABCDEFGHIJKLMNOPQRSTU" = 21 /\
  get_gap_num "ABCDEFGHIJKLMNOPQRSTU" = Ok (-1) /\
  ~ (forall s, MAX_GAP < len_str s -> exists e, get_gap_num s = Raise e).
Proof.
  split; [reflexivity|]. split; [reflexivity|].
  intros H. destruct (H "ABCDEFGHIJKLMNOPQRSTU") as [e E].
  - reflexivity.
  - discriminate E.
Qed.

(** ** Decoding *)

Lemma decode_ignore_total (b : bytes) : exists s, decode_ascii ignore b = Ok s.
Proof.
  induction b as [|x b [s IH]]; simpl.
  - exists "". reflexivity.
  - destruct (is_ascii_byte x); rewrite IH; simpl; eauto.
Qed.

Lemma decode_strict_cases (b : bytes) :
  (exists s, decode_ascii strict b = Ok s) \/
  decode_ascii strict b = Raise UnicodeDecodeError.
Proof.
  induction b as [|x b IH]; simpl.
  - left. exists "". reflexivity.
  - destruct (is_ascii_byte x); [|right; reflexivity].
    destruct IH as [[s ->] | ->]; simpl; eauto.
Qed.

(** A decoding that succeeds under [strict] gives the same text under
    [ignore]: there was nothing to skip. *)
Lemma decode_strict_ignore (b : bytes) (s : string) :
  decode_ascii strict b = Ok s -> decode_ascii ignore b = Ok s.
Proof.
  revert s; induction b as [|x b IH]; simpl; intros s; [auto|].
  destruct (is_ascii_byte x); [|discriminate].
  destruct (decode_ascii strict b) as [s'|e]; simpl; [|discriminate].
  intros H. rewrite (IH s' eq_refl). exact H.
Qed.

(** The bytes the first [read] of the chain returns, and those the second
    returns when the first decoding failed: the cursor has moved past the
    first ones. *)
Definition first_field (c : bytes) (p : Z) : bytes := slice c p STRING_LENGHT.
Definition second_field (c : bytes) (p : Z) : bytes :=
  slice c (p + len_bytes (first_field c p)) STRING_LENGHT.

(** What [parse_string] leaves in [_VALUE_] for a cursor position that is not
    negative: the chain never gets to its third step. *)
Lemma parse_string_body_value (c : bytes) (q : Z) (offset gap buf : Z) :
  0 <= offset + buf + gap ->
  fst (parse_string_body offset gap buf (mkfile c q)) =
  match decode_ascii strict (first_field c (offset + buf + gap)) with
  | Ok s => Ok s
  | Raise _ => decode_ascii ignore (second_field c (offset + buf + gap))
  end.
Proof.
  intros Hp. unfold parse_string_body, bind, try_except, seek, read_decode,
    bind, read, lift. simpl.
  destruct (offset + buf + gap <? 0) eqn:E; [apply Z.ltb_lt in E; lia|].
  simpl. fold (first_field c (offset + buf + gap)).
  destruct (decode_strict_cases (first_field c (offset + buf + gap)))
    as [[s ->] | ->]; [reflexivity|].
  simpl. fold (second_field c (offset + buf + gap)).
  destruct (decode_ignore_total (second_field c (offset + buf + gap))) as [s ->].
  reflexivity.
Qed.

Lemma parse_string_body_negative (fp : file) (offset gap buf : Z) :
  offset + buf + gap < 0 ->
  fst (parse_string_body offset gap buf fp) = Raise (OSError EINVAL).
Proof.
  intros Hp. unfold parse_string_body, bind, seek.
  destruct (offset + buf + gap <? 0) eqn:E; [reflexivity|].
  apply Z.ltb_ge in E. lia.
Qed.



(** ** The value extractor *)

(** The value [parse_string] returns, for an image that exists and a read
    position that is not negative. *)
Lemma parse_string_value (fs : string -> option bytes) (image : string)
      (c : bytes) (offset gap buf : Z) :
  fs image = Some c ->
  0 <= offset + buf + gap ->
  parse_string fs offset gap image buf =
  match decode_ascii strict (first_field c (offset + buf + gap)) with
  | Ok s => Ok (null_filter s)
  | Raise _ =>
      rbind (decode_ascii ignore (second_field c (offset + buf + gap)))
            (fun s => Ok (null_filter s))
  end.
Proof.
  intros Hfs Hp. unfold parse_string, with_open. rewrite Hfs.
  rewrite parse_string_body_value by assumption.
  destruct (decode_ascii strict (first_field c (offset + buf + gap)));
    reflexivity.
Qed.

Lemma parse_string_ok (fs : string -> option bytes) (image : string)
      (c : bytes) (offset gap buf : Z) :
  fs image = Some c ->
  0 <= offset + buf + gap ->
  exists v, parse_string fs offset gap image buf = Ok v.
Proof.
  intros Hfs Hp. rewrite (parse_string_value fs image c) by assumption.
  destruct (decode_ascii strict (first_field c (offset + buf + gap))); [eauto|].
  destruct (decode_ignore_total (second_field c (offset + buf + gap))) as [s ->].
  simpl. eauto.
Qed.

(** C6, on a field that strict ASCII refuses: the 45 bytes at the read
    position 0 + 2 + 16 are the field, and their lenient decoding is
    [A1B2C3D4] and the padding; but the fallback reads again, so what
    [parse_string] decodes and returns is what follows the field. *)
Theorem parse_string_fallback_reads_on :
  first_field broken_image (0 + 2 + 16) = broken_field /\
  len_bytes broken_field = STRING_LENGHT /\
  decode_ascii strict broken_field = Raise UnicodeDecodeError /\
  decode_ascii ignore broken_field = Ok ("A1B2C3D4" ++ nuls 36)%string /\
  second_field broken_image (0 + 2 + 16) = ascii_bytes "NEXTRECORD" /\
  parse_string (one_file "nvme.img" broken_image) 0 16 "nvme.img" 2
  = Ok "NEXTRECORD".
Proof.
  repeat split; vm_compute; reflexivity.
Qed.

(** *** The filter *)

Lemma search_alnum_empty : search_alnum "" = false.
Proof. reflexivity. Qed.

Lemma null_filter_alnum (v : string) :
  search_alnum v = true -> null_filter v = v.
Proof.
  intros H. unfold null_filter. rewrite H. simpl.
  destruct (String.eqb_spec v ""); [|reflexivity].
  subst. discriminate H.
Qed.

Lemma null_filter_no_alnum (v : string) :
  search_alnum v = false -> null_filter v = "NULL".
Proof.
  intros H. unfold null_filter. rewrite H. reflexivity.
Qed.

Lemma search_alnum_spec (v : string) :
  search_alnum v = true <->
  exists c, In c (list_ascii_of_string v) /\ is_alnum c = true.
Proof. unfold search_alnum. apply existsb_exists. Qed.

Lemma decode_strict_zeros (n : nat) : decode_ascii strict (zeros n) = Ok (nuls n).
Proof.
  induction n as [|n IH]; [reflexivity|].
  unfold zeros, nuls in *. simpl. rewrite IH. reflexivity.
Qed.

Lemma search_alnum_nuls (n : nat) : search_alnum (nuls n) = false.
Proof.
  unfold search_alnum, nuls. rewrite list_ascii_of_string_of_list_ascii.
  induction n as [|n IH]; [reflexivity | exact IH].
Qed.

(** C7, as the code has it: a text with no alphanumeric character (the empty
    text is one) becomes ["NULL"], every other text is returned unchanged; so
    the result is ["NULL"] exactly for the texts with no alphanumeric
    character and for the text ["NULL"] itself.  A field that is all null
    bytes gives ["NULL"]. *)
Theorem null_filter_spec (v : string) :
  (search_alnum v = false -> null_filter v = "NULL") /\
  (search_alnum v = true -> null_filter v = v) /\
  (v = "" -> search_alnum v = false) /\
  (null_filter v = "NULL" <-> (v = "" \/ search_alnum v = false \/ v = "NULL")) /\
  (forall fs image c offset gap buf,
      fs image = Some c ->
      0 <= offset + buf + gap ->
      first_field c (offset + buf + gap) = zeros 45 ->
      parse_string fs offset gap image buf = Ok "NULL").
Proof.
  split; [apply null_filter_no_alnum|].
  split; [apply null_filter_alnum|].
  split; [intros ->; reflexivity|].
  split.
  - split.
    + intros H. destruct (search_alnum v) eqn:E; [|auto].
      rewrite (null_filter_alnum v E) in H. auto.
    + intros [-> | [H | ->]]; [reflexivity | | reflexivity].
      apply null_filter_no_alnum; assumption.
  - intros fs image c offset gap buf Hfs Hp Hz.
    rewrite (parse_string_value fs image c) by assumption.
    rewrite Hz, decode_strict_zeros.
    rewrite null_filter_no_alnum; [reflexivity | apply search_alnum_nuls].
Qed.

Lemma null_filter_spec_witness :
  null_filter "!?" = "NULL" /\
  null_filter "A1B2C3D4" = "A1B2C3D4" /\
  parse_string (one_file "nvme.img" (ascii_bytes "SN" ++ zeros 63))
               0 16 "nvme.img" 2 = Ok "NULL".
Proof.
  split; [|split].
  - apply (proj1 (null_filter_spec "!?")). reflexivity.
  - apply (proj1 (proj2 (null_filter_spec "A1B2C3D4"))). reflexivity.
  - apply (proj2 (proj2 (proj2 (proj2 (null_filter_spec ""))))
             (one_file "nvme.img" (ascii_bytes "SN" ++ zeros 63)) "nvme.img"
             (ascii_bytes "SN" ++ zeros 63)).
    + reflexivity.
    + vm_compute. discriminate.
    + vm_compute. reflexivity.
Defined.

(** C7 fails as stated in one direction: the text ["NULL"] has alphanumeric
    characters and is not empty, and the result is ["NULL"]; a field that
    holds these four bytes is read as such. *)
Lemma null_filter_null_text :
  search_alnum "NULL" = true /\ "NULL" <> "" /\
  null_filter "NULL" = "NULL" /\
  parse_string (one_file "nvme.img" (ascii_bytes "SN" ++ zeros 16 ++ ascii_bytes "NULL"))
               0 16 "nvme.img" 2 = Ok "NULL" /\
  ~ (forall v, null_filter v = "NULL" <-> (v = "" \/ search_alnum v = false)).
Proof.
  split; [reflexivity|]. split; [discriminate|]. split; [reflexivity|].
  split; [vm_compute; reflexivity|].
  intros H. destruct (proj1 (H "NULL") eq_refl) as [E | E]; discriminate E.
Qed.

(** ** The header *)

Lemma fromhex_MAGIC : fromhex MAGIC = Ok header_literal.
Proof. reflexivity. Qed.

Lemma slice_found (c sub : bytes) (off : Z) :
  bytes_find c sub = off -> 0 <= off ->
  slice c off (len_bytes sub) = sub.
Proof.
  intros E Hoff. destruct (bytes_find_found c sub off E Hoff) as (_ & Hs & _).
  unfold slice, len_bytes. rewrite Nat2Z.id. apply startswith_firstn. exact Hs.
Qed.

Lemma contains_nonempty (sub c : bytes) :
  sub <> [] -> contains sub c -> c <> [].
Proof.
  intros Hsub (pre & post & ->) E.
  apply app_eq_nil in E as [_ E]. apply app_eq_nil in E as [E _]. auto.
Qed.

Lemma check_header_mismatch (off : Z) (hdr : bytes) :
  hdr <> header_literal ->
  check_header off hdr =
  Raise (RuntimeError
           ("Expected " ++ MAGIC ++ " but got " ++ bytes_repr hdr ++ "!")%string).
Proof.
  intros H. unfold check_header.
  destruct (bytes_eqb hdr header_literal) eqn:E; [|reflexivity].
  apply bytes_eqb_eq in E. contradiction.
Qed.

Lemma check_header_match (off : Z) : check_header off header_literal = Ok off.
Proof. reflexivity. Qed.

(** What [parse_null_bytes] does with an image that is not empty: the search,
    the seek to its answer, the read of 17 bytes there and the test. *)
Lemma parse_null_bytes_nonempty (fs : string -> option bytes) (image : string)
      (c : bytes) :
  fs image = Some c -> c <> [] ->
  parse_null_bytes fs image =
  let off := bytes_find c header_literal in
  if off <? 0 then Raise (OSError EINVAL)
  else check_header off (slice c off 17).
Proof.
  intros Hfs Hc. unfold parse_null_bytes, with_open. rewrite Hfs.
  unfold bind at 1. unfold read_all. simpl pos. simpl content.
  change (skipn (Z.to_nat 0) c) with c.
  unfold bind at 1. unfold lift.
  rewrite get_value_offset_str by assumption. rewrite fromhex_MAGIC.
  unfold bind at 1. unfold seek.
  destruct (bytes_find c header_literal <? 0); reflexivity.
Qed.

(** With the magic in the image, the search finds it, the 17 bytes read at
    its offset are the magic, and the offset is returned. *)
Lemma parse_null_bytes_found (fs : string -> option bytes) (image : string)
      (c : bytes) :
  fs image = Some c ->
  contains header_literal c ->
  0 <= bytes_find c header_literal /\
  slice c (bytes_find c header_literal) 17 = header_literal /\
  parse_null_bytes fs image
  = check_header (bytes_find c header_literal)
                 (slice c (bytes_find c header_literal) 17) /\
  parse_null_bytes fs image = Ok (bytes_find c header_literal).
Proof.
  intros Hfs Hin.
  assert (Hc : c <> [])
    by (apply (contains_nonempty header_literal); [discriminate | assumption]).
  assert (Hoff : 0 <= bytes_find c header_literal).
  { destruct (bytes_find_range c header_literal) as [E | H]; [|lia].
    apply bytes_find_none in E. contradiction. }
  assert (Hs : slice c (bytes_find c header_literal) 17 = header_literal)
    by (apply (slice_found c header_literal); [reflexivity | assumption]).
  rewrite (parse_null_bytes_nonempty fs image c) by assumption. simpl.
  destruct (bytes_find c header_literal <? 0) eqn:E;
    [apply Z.ltb_lt in E; lia|].
  repeat split; auto. rewrite Hs. reflexivity.
Qed.

(** C8, on the code.  An image without the magic makes header location
    fail, and no offset is returned; but the failure is not a header error:
    an empty image stops at the "too short" error of the search, and one that
    is not empty at the seek to the answer [-1] of the search, with an
    [OSError], before the test of the header is reached.  An image with the
    magic has it at the offset found, the 17 bytes read there are the magic,
    and that offset is returned.  The test itself raises the "expected ...
    but got ..." error, with both values in it, for any other 17 bytes. *)
Theorem parse_null_bytes_spec (fs : string -> option bytes) (image : string)
        (c : bytes) :
  fs image = Some c ->
  (c = [] -> parse_null_bytes fs image = Raise (RuntimeError msg_too_short)) /\
  (c <> [] -> ~ contains header_literal c ->
   parse_null_bytes fs image = Raise (OSError EINVAL)) /\
  (contains header_literal c ->
   exists off, bytes_find c header_literal = off /\ 0 <= off /\
               slice c off 17 = header_literal /\
               parse_null_bytes fs image = check_header off (slice c off 17) /\
               parse_null_bytes fs image = Ok off) /\
  (forall off hdr, hdr <> header_literal ->
     check_header off hdr =
     Raise (RuntimeError
              ("Expected " ++ MAGIC ++ " but got " ++ bytes_repr hdr ++ "!")%string)) /\
  (forall off, check_header off header_literal = Ok off).
Proof.
  intros Hfs. split; [|split; [|split; [|split]]].
  - intros ->. unfold parse_null_bytes, with_open. rewrite Hfs. reflexivity.
  - intros Hc Hn. rewrite (parse_null_bytes_nonempty fs image c) by assumption.
    apply bytes_find_none in Hn. rewrite Hn. reflexivity.
  - intros Hin. exists (bytes_find c header_literal).
    destruct (parse_null_bytes_found fs image c Hfs Hin) as (Hoff & Hs & Hchk & Hok).
    repeat split; assumption.
  - apply check_header_mismatch.
  - apply check_header_match.
Qed.

Lemma parse_null_bytes_spec_witness :
  parse_null_bytes (one_file "nvme.img" (ascii_bytes "Hisi-NV-Partitio")) "nvme.img"
  = Raise (OSError EINVAL) /\
  parse_null_bytes (one_file "nvme.img" sn_image) "nvme.img" = Ok 0.
Proof.
  split.
  - destruct (parse_null_bytes_spec
                (one_file "nvme.img" (ascii_bytes "Hisi-NV-Partitio")) "nvme.img"
                (ascii_bytes "Hisi-NV-Partitio") eq_refl) as (_ & H & _).
    apply H; [discriminate|]. apply bytes_find_none. reflexivity.
  - destruct (parse_null_bytes_spec (one_file "nvme.img" sn_image) "nvme.img"
                sn_image eq_refl) as (_ & _ & H & _).
    destruct H as (off & Hoff & _ & _ & _ & ->).
    + exists [], (skipn 17 sn_image). reflexivity.
    + rewrite <- Hoff. vm_compute. reflexivity.
Defined.

(** Two images without the magic: the empty one stops at the "too short"
    error of the search, and one that is not empty at the seek, with an
    [OSError] that is none of the program's own errors. *)
Lemma parse_null_bytes_missing_magic :
  ~ contains header_literal [] /\
  parse_null_bytes (one_file "nvme.img" []) "nvme.img"
  = Raise (RuntimeError msg_too_short) /\
  ~ contains header_literal (ascii_bytes "Hisi-NV-Partitio") /\
  parse_null_bytes (one_file "nvme.img" (ascii_bytes "Hisi-NV-Partitio")) "nvme.img"
  = Raise (OSError EINVAL) /\
  (forall msg,
      parse_null_bytes (one_file "nvme.img" (ascii_bytes "Hisi-NV-Partitio")) "nvme.img"
      <> Raise (RuntimeError msg)).
Proof.
  split; [apply bytes_find_none; reflexivity|].
  split; [reflexivity|].
  split; [apply bytes_find_none; reflexivity|].
  split; [reflexivity|].
  intros msg. vm_compute. discriminate.
Qed.

(** ** The loop of [main] *)

(** The line of a record, as the mode of the run prints it. *)
Definition record : Type := (string * string * Z * Z)%type.

Definition record_line (argv : list string) (rec : record) : string :=
  let '(name, res, off, length) := rec in
  if debug_on argv then debug_line name res off length
  else normal_line name res.

(** One turn of the loop, for a key that is hex for the ASCII text [name]. *)
Lemma scan_entry_unfold (fs : string -> option bytes) (argv : list string)
      (data : bytes) (nvme key : string) (b : bytes) (name : string)
      (out : stdout) :
  data <> [] ->
  fromhex key = Ok b ->
  decode_ascii strict b = Ok name ->
  scan_entry fs argv data nvme key out =
  match parse_string fs (bytes_find data b) (MAX_GAP - len_str key) nvme
                     (len_bytes b) with
  | Ok res =>
      (Ok tt, out ++ [record_line argv (name, res, bytes_find data b, len_str key)])
  | Raise e => (Raise e, out)
  end.
Proof.
  intros Hd Hb Hn. unfold scan_entry, bind, lift, get_gap_num, display_name.
  rewrite get_value_offset_str by assumption. rewrite Hb.
  cbv beta iota delta [rbind].
  destruct (parse_string fs (bytes_find data b) (MAX_GAP - len_str key) nvme
                         (len_bytes b)); [|reflexivity].
  unfold record_line. rewrite Hn.
  destruct (debug_on argv); reflexivity.
Qed.

(** The entries of the catalog: the key is the hex spelling of the name, so
    it is twice as long. *)
Lemma VALUES_entry (key name : string) :
  In (key, name) VALUES ->
  fromhex key = Ok (ascii_bytes name) /\
  decode_ascii strict (ascii_bytes name) = Ok name /\
  display_name key = Ok name /\
  len_bytes (ascii_bytes name) = len_str name /\
  len_str key = 2 * len_str name /\
  2 <= len_str name <= 7.
Proof.
  unfold VALUES. intros H.
  repeat (destruct H as [H | H];
          [injection H as <- <-; vm_compute; intuition discriminate|]).
  destruct H.
Qed.

(** C2, on the code: for every entry of the catalog the gap that [main] hands
    to [parse_string] is [get_gap_num] of the hex key, 20 minus twice the
    length of the display name, which is never 20 minus that length; so the
    value is read at [offset + 20 - length], as for [SN] in the test image at
    1018 and not at 1020. *)
Theorem catalog_gap_is_of_hex_key (key name : string) :
  In (key, name) VALUES ->
  display_name key = Ok name /\
  get_gap_num key = Ok (MAX_GAP - 2 * len_str name) /\
  get_gap_num name = Ok (MAX_GAP - len_str name) /\
  MAX_GAP - 2 * len_str name <> MAX_GAP - len_str name /\
  (forall fs argv data nvme out,
      data <> [] ->
      scan_entry fs argv data nvme key out =
      match parse_string fs (bytes_find data (ascii_bytes name))
                         (MAX_GAP - 2 * len_str name) nvme (len_str name) with
      | Ok res =>
          (Ok tt, out ++ [record_line argv (name, res,
                                            bytes_find data (ascii_bytes name),
                                            len_str key)])
      | Raise e => (Raise e, out)
      end) /\
  (forall c offset,
      0 <= offset ->
      fst (parse_string_body offset (MAX_GAP - 2 * len_str name) (len_str name)
                             (mkfile c 0))
      = match decode_ascii strict (first_field c (offset + MAX_GAP - len_str name)) with
        | Ok s => Ok s
        | Raise _ =>
            decode_ascii ignore (second_field c (offset + MAX_GAP - len_str name))
        end).
Proof.
  intros H. destruct (VALUES_entry key name H) as (Hb & Hn & Hd & Hl & Hk & Hr).
  split; [exact Hd|].
  split; [unfold get_gap_num; rewrite Hk; reflexivity|].
  split; [reflexivity|].
  split; [lia|]. split.
  - intros fs argv data nvme out Hdata.
    rewrite (scan_entry_unfold fs argv data nvme key (ascii_bytes name) name)
      by assumption.
    rewrite Hl, Hk. reflexivity.
  - intros c offset Hoff. unfold MAX_GAP.
    rewrite parse_string_body_value by lia.
    replace (offset + len_str name + (20 - 2 * len_str name))
      with (offset + 20 - len_str name) by lia.
    reflexivity.
Qed.

Lemma catalog_gap_is_of_hex_key_witness :
  get_gap_num "534E" = Ok 16 /\ get_gap_num "SN" = Ok 18 /\
  scan_entry (one_file "nvme.img" sn_image) ["nvme-huawei.py"; "-r"; "nvme.img"]
             sn_image "nvme.img" "534E" []
  = match parse_string (one_file "nvme.img" sn_image) 1000 16 "nvme.img" 2 with
    | Ok res => (Ok tt, [normal_line "SN" res])
    | Raise e => (Raise e, [])
    end.
Proof.
  assert (H : In ("534E", "SN") VALUES) by (simpl; tauto).
  destruct (catalog_gap_is_of_hex_key "534E" "SN" H) as (_ & Hg & Hn & _ & Hs & _).
  split; [exact Hg|]. split; [exact Hn|].
  rewrite Hs by discriminate. vm_compute. reflexivity.
Defined.

Lemma scan_cons (fs : string -> option bytes) (argv : list string)
      (data : bytes) (nvme key : string) (rest : list string) (out : stdout) :
  scan fs argv data nvme (key :: rest) out =
  match scan_entry fs argv data nvme key out with
  | (Ok _, out') => scan fs argv data nvme rest out'
  | (Raise e, out') => (Raise e, out')
  end.
Proof. reflexivity. Qed.

Lemma slice_app_skip (pre rest : bytes) (k n : Z) :
  0 <= k -> slice (pre ++ rest) (len_bytes pre + k) n = slice rest k n.
Proof.
  intros Hk. unfold slice, len_bytes.
  rewrite Z2Nat.inj_add, Nat2Z.id by lia.
  rewrite skipn_app, skipn_all2 by lia.
  replace (List.length pre + Z.to_nat k - List.length pre)%nat
    with (Z.to_nat k) by lia.
  reflexivity.
Qed.

Lemma sn_record_field (post : bytes) :
  slice (sn_record ++ post) 18 STRING_LENGHT
  = zeros 2 ++ ascii_bytes "A1B2C3D4" ++ zeros 35.
Proof. reflexivity. Qed.

(** C1, on the code: in any image with the record of the scenario at offset
    1000, where the search finds the tag, the scan of the entry reads with
    the gap 16 of the hex key, at 1018, and prints for [SN] the 45
    characters decoded there: two null characters, [A1B2C3D4] and 35 null
    characters of its padding.  The null characters stay in the value, so
    the line is not [SN = A1B2C3D4]. *)
Theorem sn_scenario_record
        (fs : string -> option bytes) (argv : list string) (nvme : string)
        (pre post : bytes) (out : stdout) :
  fs nvme = Some (pre ++ sn_record ++ post) ->
  len_bytes pre = 1000 ->
  bytes_find (pre ++ sn_record ++ post) (ascii_bytes "SN") = 1000 ->
  debug_on argv = false ->
  parse_string fs 1000 16 nvme 2 = Ok (nuls 2 ++ "A1B2C3D4" ++ nuls 35)%string /\
  scan fs argv (pre ++ sn_record ++ post) nvme ["534E"] out
  = (Ok tt, out ++ [("SN = " ++ nuls 2 ++ "A1B2C3D4" ++ nuls 35)%string]) /\
  len_str (nuls 2 ++ "A1B2C3D4" ++ nuls 35) = STRING_LENGHT /\
  (nuls 2 ++ "A1B2C3D4" ++ nuls 35)%string <> "A1B2C3D4" /\
  ("SN = " ++ nuls 2 ++ "A1B2C3D4" ++ nuls 35)%string <> "SN = A1B2C3D4".
Proof.
  intros Hfs Hpre Hfind Hdbg.
  assert (Hval : parse_string fs 1000 16 nvme 2
                 = Ok (nuls 2 ++ "A1B2C3D4" ++ nuls 35)%string).
  { rewrite (parse_string_value fs nvme (pre ++ sn_record ++ post))
      by (try assumption; vm_compute; discriminate).
    replace (1000 + 2 + 16) with (len_bytes pre + 18) by (rewrite Hpre; reflexivity).
    unfold first_field. rewrite slice_app_skip by lia.
    rewrite sn_record_field. reflexivity. }
  split; [exact Hval|].
  split; [|split; [reflexivity | split; discriminate]].
  rewrite scan_cons.
  rewrite (scan_entry_unfold fs argv _ nvme "534E" (ascii_bytes "SN") "SN")
    by (try reflexivity; destruct pre; discriminate).
  rewrite Hfind.
  change (MAX_GAP - len_str "534E") with 16.
  change (len_bytes (ascii_bytes "SN")) with 2.
  rewrite Hval. unfold record_line. rewrite Hdbg. reflexivity.
Qed.

Lemma sn_scenario_record_witness :
  parse_string (one_file "nvme.img" sn_image) 1000 16 "nvme.img" 2
  = Ok (nuls 2 ++ "A1B2C3D4" ++ nuls 35)%string /\
  scan (one_file "nvme.img" sn_image) ["nvme-huawei.py"; "-r"; "nvme.img"]
       sn_image "nvme.img" ["534E"] []
  = (Ok tt, [("SN = " ++ nuls 2 ++ "A1B2C3D4" ++ nuls 35)%string]).
Proof.
  destruct (sn_scenario_record (one_file "nvme.img" sn_image)
              ["nvme-huawei.py"; "-r"; "nvme.img"] "nvme.img"
              (ascii_bytes "Hisi-NV-Partition" ++ zeros 983) [] [])
    as (Hval & Hscan & _).
  - reflexivity.
  - vm_compute. reflexivity.
  - vm_compute. reflexivity.
  - reflexivity.
  - split; [exact Hval | exact Hscan].
Defined.

(** The scenario on the test image: the tag is found at 1000 and the 45
    bytes read are zero bytes, the text and its padding; all are ASCII, so
    the value holds the 45 characters and is not [A1B2C3D4] alone.  Read
    with the gap 18 of the scenario it would still carry 37 characters of
    padding. *)
Lemma sn_scenario_value_is_padded :
  get_value_offset sn_image (VStr "534E") = Ok 1000 /\
  scan (one_file "nvme.img" sn_image) ["nvme-huawei.py"; "-r"; "nvme.img"]
       sn_image "nvme.img" ["534E"] []
  = (Ok tt, [("SN = " ++ nuls 2 ++ "A1B2C3D4" ++ nuls 35)%string]) /\
  ("SN = " ++ nuls 2 ++ "A1B2C3D4" ++ nuls 35)%string <> "SN = A1B2C3D4" /\
  (nuls 2 ++ "A1B2C3D4" ++ nuls 35)%string <> "A1B2C3D4" /\
  parse_string (one_file "nvme.img" sn_image) 1000 18 "nvme.img" 2
  = Ok ("A1B2C3D4" ++ nuls 37)%string.
Proof.
  repeat split; try (vm_compute; reflexivity); vm_compute; discriminate.
Qed.

(** C4, as the code has it: when a tag of the catalog is not in the image,
    the search answers [-1] and the loop goes on with it as the offset: the
    value is read at [-1 + length + gap], a position that is not negative
    for the tags of the catalog, the read gives a value, and the record is
    printed as any other, with that value; the loop then takes the next
    entry. *)
Theorem absent_tag_read_at_minus_one
        (fs : string -> option bytes) (argv : list string) (nvme : string)
        (data : bytes) (key name : string) (rest : list string) (out : stdout) :
  fs nvme = Some data ->
  data <> [] ->
  In (key, name) VALUES ->
  ~ contains (ascii_bytes name) data ->
  get_value_offset data (VStr key) = Ok (-1) /\
  get_gap_num key = Ok (MAX_GAP - len_str key) /\
  0 <= -1 + len_str name + (MAX_GAP - len_str key) /\
  exists res,
    parse_string fs (-1) (MAX_GAP - len_str key) nvme (len_str name) = Ok res /\
    scan fs argv data nvme (key :: rest) out
    = scan fs argv data nvme rest
           (out ++ [record_line argv (name, res, -1, len_str key)]).
Proof.
  intros Hfs Hdata Hin Habs.
  destruct (VALUES_entry key name Hin) as (Hb & Hn & Hd & Hl & Hk & Hr).
  apply bytes_find_none in Habs.
  assert (Hp : 0 <= -1 + len_str name + (MAX_GAP - len_str key))
    by (unfold MAX_GAP; lia).
  split; [rewrite get_value_offset_str, Hb, Habs by assumption; reflexivity|].
  split; [reflexivity|]. split; [exact Hp|].
  destruct (parse_string_ok fs nvme data (-1) (MAX_GAP - len_str key)
                            (len_str name) Hfs) as [res Hres]; [lia|].
  exists res. split; [exact Hres|].
  rewrite scan_cons.
  rewrite (scan_entry_unfold fs argv data nvme key (ascii_bytes name) name)
    by assumption.
  rewrite Habs, Hl, Hres. reflexivity.
Qed.

Lemma absent_tag_read_at_minus_one_witness :
  exists res,
    parse_string (one_file "nvme.img" sn_image) (-1) (MAX_GAP - 14) "nvme.img" 7
    = Ok res /\
    scan (one_file "nvme.img" sn_image) ["nvme-huawei.py"; "-r"; "nvme.img"]
         sn_image "nvme.img" ["4D414341444452"; "534E"] []
    = scan (one_file "nvme.img" sn_image) ["nvme-huawei.py"; "-r"; "nvme.img"]
           sn_image "nvme.img" ["534E"] [normal_line "MACADDR" res].
Proof.
  destruct (absent_tag_read_at_minus_one
              (one_file "nvme.img" sn_image) ["nvme-huawei.py"; "-r"; "nvme.img"]
              "nvme.img" sn_image "4D414341444452" "MACADDR" ["534E"] [])
    as (_ & _ & _ & res & Hres & Hscan).
  - reflexivity.
  - discriminate.
  - simpl; tauto.
  - apply bytes_find_none. vm_compute. reflexivity.
  - exists res. split; [exact Hres | exact Hscan].
Defined.

(** C4 fails as stated: the test image has no [MACADDR]; the search answers
    [-1], the seek goes to [-1 + 7 + 6 = 12], inside the header text, and the
    record is an ordinary line whose value is what was decoded there; nothing
    marks the tag as missing. *)
Lemma absent_tag_prints_a_value :
  ~ contains (ascii_bytes "MACADDR") sn_image /\
  get_value_offset sn_image (VStr "4D414341444452") = Ok (-1) /\
  first_field sn_image (-1 + 7 + 6) = ascii_bytes "ition" ++ zeros 40 /\
  parse_string (one_file "nvme.img" sn_image) (-1) 6 "nvme.img" 7
  = Ok ("ition" ++ nuls 40)%string /\
  scan (one_file "nvme.img" sn_image) ["nvme-huawei.py"; "-r"; "nvme.img"]
       sn_image "nvme.img" ["4D414341444452"; "534E"] []
  = (Ok tt, [normal_line "MACADDR" ("ition" ++ nuls 40);
             normal_line "SN" (nuls 2 ++ "A1B2C3D4" ++ nuls 35)]%string).
Proof.
  split; [apply bytes_find_none; vm_compute; reflexivity|].
  repeat split; vm_compute; reflexivity.
Qed.

(** ** The two modes of a run *)

(** [rec] is what the loop computes for [key]: the offset the search gives,
    the value read there with the gap of the key, the name the key decodes
    to, and the length of the key. *)
Definition is_record (fs : string -> option bytes) (data : bytes)
           (nvme key : string) (rec : record) : Prop :=
  let '(name, res, off, length) := rec in
  get_value_offset data (VStr key) = Ok off /\
  (exists b, fromhex key = Ok b /\
             parse_string fs off (MAX_GAP - len_str key) nvme (len_bytes b)
             = Ok res) /\
  display_name key = Ok name /\
  length = len_str key.

Definition debug_line_of (rec : record) : string :=
  let '(name, res, off, length) := rec in debug_line name res off length.

Definition normal_line_of (rec : record) : string :=
  let '(name, res, _, _) := rec in normal_line name res.

(** What follows the records: the empty line, when the loop came to its end. *)
Definition closing (r : result unit) : list string :=
  match r with Ok _ => [""] | Raise _ => [] end.

Lemma append_assoc (a b c : string) : ((a ++ b) ++ c = a ++ (b ++ c))%string.
Proof.
  induction a as [|x a IH]; simpl; [reflexivity | rewrite IH; reflexivity].
Qed.

Lemma debug_line_extends (name res : string) (off length : Z) :
  debug_line name res off length
  = (normal_line name res ++ " (OFFSET = " ++ str_of_int off
       ++ ") (LENGHT = " ++ str_of_int length ++ ")")%string.
Proof.
  unfold debug_line, normal_line. rewrite !append_assoc. reflexivity.
Qed.

(** A turn of the loop prints one line and goes on, or raises and prints
    nothing; which of the two, and the record, do not depend on the mode. *)
Lemma scan_entry_cases (fs : string -> option bytes) (data : bytes)
      (nvme key : string) :
  (exists rec, is_record fs data nvme key rec /\
               forall argv out, scan_entry fs argv data nvme key out
                                = (Ok tt, out ++ [record_line argv rec]))
  \/ (exists e, forall argv out, scan_entry fs argv data nvme key out
                                 = (Raise e, out)).
Proof.
  unfold scan_entry, bind, lift, get_gap_num.
  destruct (get_value_offset data (VStr key)) as [off|e] eqn:Eoff;
    [|right; exists e; reflexivity].
  destruct (fromhex key) as [b|e] eqn:Eb;
    [|right; exists e; reflexivity].
  cbv beta iota delta [rbind].
  destruct (parse_string fs off (MAX_GAP - len_str key) nvme (len_bytes b))
    as [res|e] eqn:Eres; [|right; exists e; reflexivity].
  destruct (display_name key) as [name|e] eqn:En.
  - left. exists (name, res, off, len_str key). split.
    + unfold is_record. repeat split; eauto.
    + intros argv out. unfold record_line.
      destruct (debug_on argv); reflexivity.
  - right. exists e. intros argv out. destruct (debug_on argv); reflexivity.
Qed.

(** The loop prints the records of the keys it gets through, in their order,
    in the format of the mode. *)
Lemma scan_modes (fs : string -> option bytes) (data : bytes) (nvme : string)
      (catalog : list string) :
  exists r done rest recs,
    catalog = done ++ rest /\
    Forall2 (is_record fs data nvme) done recs /\
    (r = Ok tt -> rest = []) /\
    forall argv out, scan fs argv data nvme catalog out
                     = (r, out ++ map (record_line argv) recs).
Proof.
  induction catalog as [|key catalog IH].
  - exists (Ok tt), [], [], []. repeat split; auto.
    intros argv out. simpl. rewrite app_nil_r. reflexivity.
  - destruct (scan_entry_cases fs data nvme key) as [(rec & Hrec & Hk) | (e & Hk)].
    + destruct IH as (r & done & rest & recs & Hcat & Hall & Hr & Hscan).
      exists r, (key :: done), rest, (rec :: recs). repeat split; auto.
      * simpl. rewrite Hcat. reflexivity.
      * intros argv out. rewrite scan_cons, Hk, Hscan. simpl.
        rewrite <- app_assoc. reflexivity.
    + exists (Raise e), [], (key :: catalog), []. repeat split; auto.
      * discriminate.
      * intros argv out. rewrite scan_cons, Hk. simpl.
        rewrite app_nil_r. reflexivity.
Qed.

(** Over an image that is not empty, no tag of the catalog stops the loop:
    found or not, its value is read at a position that is not negative. *)
Lemma scan_catalog_ok (fs : string -> option bytes) (argv : list string)
      (data : bytes) (nvme : string) (catalog : list (string * string)) :
  fs nvme = Some data -> data <> [] ->
  incl catalog VALUES ->
  forall out, exists out', scan fs argv data nvme (keys catalog) out = (Ok tt, out').
Proof.
  intros Hfs Hdata. induction catalog as [|[key name] catalog IH]; intros Hincl out.
  - exists out. reflexivity.
  - assert (Hin : In (key, name) VALUES) by (apply Hincl; left; reflexivity).
    destruct (VALUES_entry key name Hin) as (Hb & Hn & Hd & Hl & Hk & Hr).
    simpl keys. rewrite scan_cons.
    rewrite (scan_entry_unfold fs argv data nvme key (ascii_bytes name) name)
      by assumption.
    destruct (parse_string_ok fs nvme data (bytes_find data (ascii_bytes name))
                (MAX_GAP - len_str key) (len_bytes (ascii_bytes name)) Hfs)
      as [res ->].
    + destruct (bytes_find_range data (ascii_bytes name)); unfold MAX_GAP; lia.
    + apply IH. intros x Hx. apply Hincl. right. exact Hx.
Qed.

Lemma read_all_whole (fs : string -> option bytes) (path : string) (data : bytes) :
  fs path = Some data -> with_open fs path read_all = Ok data.
Proof. intros H. unfold with_open. rewrite H. reflexivity. Qed.

(** A run whose first argument is [-r], with the path as the last of two or
    three arguments. *)
Lemma main_read (fs : string -> option bytes) (argv : list string)
      (prog path : string) :
  argv = [prog; "-r"; path] \/ (exists x, argv = [prog; "-r"; x; path]) ->
  main fs argv [] =
  match with_open fs path read_all with
  | Raise e => (Raise e, [banner])
  | Ok data =>
      match parse_null_bytes fs path with
      | Raise e => (Raise e, [banner])
      | Ok _ =>
          match scan fs argv data path (keys VALUES) [banner] with
          | (Ok _, out) => (Ok tt, out ++ [""])
          | (Raise e, out) => (Raise e, out)
          end
      end
  end.
Proof.
  intros [-> | [x ->]]; unfold main, bind, print, lift, ret;
    cbn [len_argv List.length Z.of_nat Z.ltb Z.eqb Z.compare Pos.compare
         Pos.compare_cont Pos.of_succ_nat Pos.succ Pos.eqb argv_at nth app];
    rewrite String.eqb_refl;
    (destruct (with_open fs path read_all); [|reflexivity]);
    (destruct (parse_null_bytes fs path); [|reflexivity]);
    match goal with
    | |- context [scan ?f ?a ?d ?p ?k ?o] => destruct (scan f a d p k o) as [[[]|e] out]
    end; reflexivity.
Qed.

Lemma record_line_debug (prog path : string) (rec : record) :
  record_line [prog; "-r"; "-d"; path] rec = debug_line_of rec.
Proof. destruct rec as [[[name res] off] length]. reflexivity. Qed.

Lemma record_line_normal (prog path : string) (rec : record) :
  record_line [prog; "-r"; path] rec = normal_line_of rec.
Proof. destruct rec as [[[name res] off] length]. reflexivity. Qed.

(** C9, as the code has it: the debug flag is the second argument, after
    [-r].  The run [-r -d path] then ends as the run [-r path] does and prints
    the same records in the same order, each line being the line of the plain
    run followed by the offset the search gave and the length of the hex
    key; the records are those of the keys of the catalog, from the first
    on, and of all of them when the image has the header. *)
Theorem debug_flag_after_r (fs : string -> option bytes) (prog path : string) :
  exists r recs done rest,
    main fs [prog; "-r"; "-d"; path] []
    = (r, banner :: map debug_line_of recs ++ closing r) /\
    main fs [prog; "-r"; path] []
    = (r, banner :: map normal_line_of recs ++ closing r) /\
    (forall name res off length,
        debug_line_of (name, res, off, length)
        = (normal_line_of (name, res, off, length)
             ++ " (OFFSET = " ++ str_of_int off
             ++ ") (LENGHT = " ++ str_of_int length ++ ")")%string) /\
    (forall data,
        fs path = Some data ->
        keys VALUES = done ++ rest /\
        Forall2 (is_record fs data path) done recs /\
        (r = Ok tt -> rest = []) /\
        (contains header_literal data -> r = Ok tt)).
Proof.
  rewrite (main_read fs _ prog path) by (right; eauto).
  rewrite (main_read fs _ prog path) by (left; reflexivity).
  destruct (fs path) as [data|] eqn:Hfs.
  2:{ exists (Raise FileNotFoundError), [], [], (keys VALUES).
      unfold with_open. rewrite Hfs.
      split; [reflexivity|]. split; [reflexivity|].
      split; [intros; apply debug_line_extends|].
      intros data' Hd. discriminate Hd. }
  rewrite (read_all_whole fs path data Hfs).
  destruct (parse_null_bytes fs path) as [off0|e] eqn:Hhdr.
  2:{ exists (Raise e), [], [], (keys VALUES).
      split; [reflexivity|]. split; [reflexivity|].
      split; [intros; apply debug_line_extends|].
      intros data' Hd. repeat split; auto; try discriminate.
      intros Hc. injection Hd as <-.
      destruct (parse_null_bytes_found fs path data Hfs Hc) as (_ & _ & _ & E).
      congruence. }
  destruct (scan_modes fs data path (keys VALUES))
    as (r & done & rest & recs & Hcat & Hall & Hr & Hscan).
  exists r, recs, done, rest.
  rewrite !Hscan.
  rewrite (map_ext _ _ (record_line_debug prog path)).
  rewrite (map_ext _ _ (record_line_normal prog path)).
  split; [destruct r as [[]|e]; simpl; rewrite <- ?app_assoc, ?app_nil_r; reflexivity|].
  split; [destruct r as [[]|e]; simpl; rewrite <- ?app_assoc, ?app_nil_r; reflexivity|].
  split; [intros; apply debug_line_extends|].
  intros data' Hd. injection Hd as <-.
  repeat split; auto.
  intros Hc.
  assert (Hne : data <> [])
    by (apply (contains_nonempty header_literal); [discriminate | assumption]).
  destruct (scan_catalog_ok fs [prog; "-r"; path] data path VALUES Hfs Hne
                            (incl_refl _) [banner]) as [out' Hok].
  rewrite Hscan in Hok. congruence.
Qed.

Lemma debug_flag_after_r_witness :
  exists recs,
    main (one_file "nvme.img" sn_image)
         ["nvme-huawei.py"; "-r"; "-d"; "nvme.img"] []
    = (Ok tt, banner :: map debug_line_of recs ++ [""]) /\
    main (one_file "nvme.img" sn_image) ["nvme-huawei.py"; "-r"; "nvme.img"] []
    = (Ok tt, banner :: map normal_line_of recs ++ [""]) /\
    Forall2 (is_record (one_file "nvme.img" sn_image) sn_image "nvme.img")
            (keys VALUES) recs.
Proof.
  destruct (debug_flag_after_r (one_file "nvme.img" sn_image)
                               "nvme-huawei.py" "nvme.img")
    as (r & recs & done & rest & Hd & Hn & _ & H).
  destruct (H sn_image eq_refl) as (Hk & Hall & Hrest & Hr).
  assert (Hc : contains header_literal sn_image)
    by (exists [], (skipn 17 sn_image); reflexivity).
  specialize (Hr Hc). subst r. rewrite (Hrest eq_refl), app_nil_r in Hk.
  exists recs. rewrite Hk. repeat split; assumption.
Defined.

(** C9 fails as stated: with [-d] first and [-r] second the first argument is
    not [-r]; the run reports the unknown option, prints the help and scans
    nothing, whatever the image. *)
Lemma debug_flag_first_is_unknown_option :
  main (one_file "nvme.img" sn_image) ["nvme-huawei.py"; "-d"; "-r"; "nvme.img"] []
  = (Ok tt, [banner; ("ERROR: Unknown option: -d" ++ nl)%string; help_text]) /\
  main (one_file "nvme.img" sn_image) ["nvme-huawei.py"; "-r"; "nvme.img"] []
  <> main (one_file "nvme.img" sn_image) ["nvme-huawei.py"; "-d"; "-r"; "nvme.img"] [] /\
  List.length (snd (main (one_file "nvme.img" sn_image)
                         ["nvme-huawei.py"; "-r"; "nvme.img"] [])) = 22%nat.
Proof.
  split; [vm_compute; reflexivity|].
  split; [vm_compute; discriminate | vm_compute; reflexivity].
Qed.

(** * Further properties *)

(** ** The codecs in closed form *)

Lemma string_of_list_byte_cons (x : byte) (b : bytes) :
  string_of_list_byte (x :: b) = String (ascii_of_byte x) (string_of_list_byte b).
Proof. reflexivity. Qed.

(** Strict decoding succeeds exactly on the sequences of ASCII bytes, and
    gives them character by character. *)
Lemma decode_strict_closed (b : bytes) :
  decode_ascii strict b =
  if forallb is_ascii_byte b then Ok (string_of_list_byte b)
  else Raise UnicodeDecodeError.
Proof.
  induction b as [|x b IH]; [reflexivity|].
  simpl decode_ascii. simpl forallb. destruct (is_ascii_byte x); [|reflexivity].
  rewrite IH. simpl andb. destruct (forallb is_ascii_byte b); reflexivity.
Qed.

(** Lenient decoding keeps the ASCII bytes and drops the others. *)
Lemma decode_ignore_closed (b : bytes) :
  decode_ascii ignore b = Ok (string_of_list_byte (filter is_ascii_byte b)).
Proof.
  induction b as [|x b IH]; [reflexivity|].
  simpl. destruct (is_ascii_byte x); rewrite IH; reflexivity.
Qed.

Lemma length_string_of_list_byte (b : bytes) :
  String.length (string_of_list_byte b) = List.length b.
Proof.
  induction b as [|x b IH]; [reflexivity|].
  rewrite string_of_list_byte_cons. simpl. rewrite IH. reflexivity.
Qed.

Lemma N_of_ascii_of_byte (x : byte) : N_of_ascii (ascii_of_byte x) = Byte.to_N x.
Proof. destruct x; reflexivity. Qed.

Definition is_ascii_char (c : ascii) : Prop := (N_of_ascii c < 128)%N.

Lemma chars_of_ascii_bytes (b : bytes) :
  forallb is_ascii_byte b = true ->
  Forall is_ascii_char (list_ascii_of_string (string_of_list_byte b)).
Proof.
  induction b as [|x b IH]; simpl forallb; intros H.
  - constructor.
  - apply andb_true_iff in H as [Hx Hb].
    rewrite string_of_list_byte_cons. simpl. constructor; [|auto].
    unfold is_ascii_char. rewrite N_of_ascii_of_byte.
    apply N.ltb_lt. exact Hx.
Qed.

Lemma forallb_filter_same {A} (f : A -> bool) (l : list A) :
  forallb f (filter f l) = true.
Proof.
  induction l as [|x l IH]; [reflexivity|].
  simpl. destruct (f x) eqn:E; [simpl; rewrite E|]; exact IH.
Qed.

Lemma length_slice (c : bytes) (p n : Z) :
  len_bytes (slice c p n) <= Z.max 0 n.
Proof.
  unfold len_bytes, slice.
  pose proof (firstn_le_length (Z.to_nat n) (skipn (Z.to_nat p) c)). lia.
Qed.


(** The text the chain decodes, before the filter. *)
Definition decoded_field (c : bytes) (p : Z) : bytes :=
  if forallb is_ascii_byte (first_field c p) then first_field c p
  else filter is_ascii_byte (second_field c p).

Lemma parse_string_decoded (fs : string -> option bytes) (image : string)
      (c : bytes) (offset gap buf : Z) :
  fs image = Some c ->
  0 <= offset + buf + gap ->
  parse_string fs offset gap image buf
  = Ok (null_filter (string_of_list_byte (decoded_field c (offset + buf + gap)))).
Proof.
  intros Hfs Hp. rewrite (parse_string_value fs image c) by assumption.
  unfold decoded_field. rewrite decode_strict_closed, decode_ignore_closed.
  destruct (forallb is_ascii_byte (first_field c (offset + buf + gap)));
    reflexivity.
Qed.





Lemma decoded_field_ascii (c : bytes) (p : Z) :
  forallb is_ascii_byte (decoded_field c p) = true.
Proof.
  unfold decoded_field.
  destruct (forallb is_ascii_byte (first_field c p)) eqn:E; [exact E|].
  apply forallb_filter_same.
Qed.

Lemma decoded_field_length (c : bytes) (p : Z) :
  len_bytes (decoded_field c p) <= STRING_LENGHT.
Proof.
  unfold decoded_field.
  destruct (forallb is_ascii_byte (first_field c p)).
  - apply (length_slice c p STRING_LENGHT).
  - pose proof (length_slice c (p + len_bytes (first_field c p)) STRING_LENGHT) as H.
    unfold second_field.
    pose proof (filter_length_le is_ascii_byte
                  (slice c (p + len_bytes (first_field c p)) STRING_LENGHT)).
    unfold len_bytes, STRING_LENGHT in *. lia.
Qed.

(** X3: whatever the image holds, a value [parse_string] returns is the
    sentinel ["NULL"], or a text of at most 45 characters, all of them ASCII,
    one at least a letter or a digit. *)
Theorem parse_string_value_shape (fs : string -> option bytes) (image : string)
        (offset gap buf : Z) (v : string) :
  parse_string fs offset gap image buf = Ok v ->
  v = "NULL" \/
  (len_str v <= STRING_LENGHT /\
   Forall is_ascii_char (list_ascii_of_string v) /\
   search_alnum v = true).
Proof.
  intros H.
  destruct (fs image) as [c|] eqn:Hfs.
  2:{ unfold parse_string, with_open in H. rewrite Hfs in H. discriminate. }
  destruct (Z.lt_ge_cases (offset + buf + gap) 0) as [Hn | Hp].
  { unfold parse_string, with_open in H. rewrite Hfs in H.
    rewrite parse_string_body_negative in H by assumption. discriminate. }
  rewrite (parse_string_decoded fs image c) in H by assumption.
  injection H as <-.
  set (t := string_of_list_byte (decoded_field c (offset + buf + gap))).
  destruct (search_alnum t) eqn:E.
  - right. rewrite (null_filter_alnum t E). split; [|split].
    + unfold len_str. subst t. rewrite length_string_of_list_byte.
      apply decoded_field_length.
    + subst t. apply chars_of_ascii_bytes, decoded_field_ascii.
    + exact E.
  - left. apply null_filter_no_alnum. exact E.
Qed.

Lemma parse_string_value_shape_witness :
  (nuls 2 ++ "A1B2C3D4" ++ nuls 35)%string = "NULL" \/
  (len_str (nuls 2 ++ "A1B2C3D4" ++ nuls 35) <= STRING_LENGHT /\
   Forall is_ascii_char (list_ascii_of_string (nuls 2 ++ "A1B2C3D4" ++ nuls 35)) /\
   search_alnum (nuls 2 ++ "A1B2C3D4" ++ nuls 35) = true).
Proof.
  apply (parse_string_value_shape (one_file "nvme.img" sn_image) "nvme.img"
                                  1000 16 2).
  vm_compute. reflexivity.
Defined.



Lemma slice_field (pre f post : bytes) (n : Z) :
  len_bytes f = n \/ (len_bytes f <= n /\ post = []) ->
  slice (pre ++ f ++ post) (len_bytes pre) n = f.
Proof.
  intros H. replace (len_bytes pre) with (len_bytes pre + 0) by lia.
  rewrite slice_app_skip by lia. unfold slice. simpl skipn.
  unfold len_bytes in H. destruct H as [H | [H ->]].
  - rewrite firstn_app. replace (Z.to_nat n - List.length f)%nat with 0%nat by lia.
    rewrite firstn_all2 by lia. simpl. apply app_nil_r.
  - rewrite app_nil_r. apply firstn_all2. lia.
Qed.

(** X5: a value written as text is read back as it is.  When the bytes of a
    text [s] of ASCII characters, one at least a letter or a digit, stand in
    the image at the read position, and fill the 45 bytes of the field or end
    the image before that, [parse_string] returns [s]. *)
Theorem parse_string_round_trip (fs : string -> option bytes) (image : string)
        (pre post : bytes) (s : string) (offset gap buf : Z) :
  fs image = Some (pre ++ list_byte_of_string s ++ post) ->
  offset + buf + gap = len_bytes pre ->
  len_str s = STRING_LENGHT \/ (len_str s <= STRING_LENGHT /\ post = []) ->
  forallb is_ascii_byte (list_byte_of_string s) = true ->
  search_alnum s = true ->
  parse_string fs offset gap image buf = Ok s.
Proof.
  intros Hfs Hp Hlen Hascii Halnum.
  rewrite (parse_string_decoded fs image _ offset gap buf Hfs)
    by (rewrite Hp; unfold len_bytes; lia).
  rewrite Hp. unfold decoded_field, first_field.
  assert (Hl : len_bytes (list_byte_of_string s) = len_str s).
  { unfold len_bytes, len_str.
    rewrite <- (length_string_of_list_byte (list_byte_of_string s)).
    rewrite string_of_list_byte_of_string. reflexivity. }
  rewrite slice_field by (rewrite Hl; exact Hlen).
  rewrite Hascii, string_of_list_byte_of_string.
  rewrite (null_filter_alnum s Halnum). reflexivity.
Qed.

Lemma parse_string_round_trip_witness :
  parse_string (one_file "nvme.img" (ascii_bytes "SN" ++ zeros 16 ++ ascii_bytes "A1B2C3D4"))
               0 16 "nvme.img" 2 = Ok "A1B2C3D4".
Proof.
  apply (parse_string_round_trip
           (one_file "nvme.img" (ascii_bytes "SN" ++ zeros 16 ++ ascii_bytes "A1B2C3D4"))
           "nvme.img" (ascii_bytes "SN" ++ zeros 16) [] "A1B2C3D4" 0 16 2).
  - vm_compute. reflexivity.
  - reflexivity.
  - right. split; [vm_compute; discriminate | reflexivity].
  - reflexivity.
  - reflexivity.
Defined.

(** ** More on the search *)

Lemma startswith_at_split (sub pre post : bytes) :
  startswith sub (skipn (List.length pre) (pre ++ sub ++ post)) = true.
Proof.
  rewrite skipn_app, Nat.sub_diag, skipn_all. simpl.
  apply startswith_app. eauto.
Qed.

(** X6: for a buffer that is not empty and a key that is hex for the bytes
    [b], [get_value_offset] answers [-1] exactly when [b] is nowhere in the
    buffer, and otherwise the offset of the first occurrence: [b] stands
    there, within the buffer, and no occurrence starts before it. *)
Theorem get_value_offset_first_occurrence (data : bytes) (key : string) (b : bytes) :
  data <> [] ->
  fromhex key = Ok b ->
  exists off,
    get_value_offset data (VStr key) = Ok off /\
    (off = -1 <-> ~ contains b data) /\
    (off <> -1 ->
     0 <= off /\ off + len_bytes b <= len_bytes data /\
     slice data off (len_bytes b) = b /\
     forall pre post, data = pre ++ b ++ post -> off <= len_bytes pre).
Proof.
  intros Hd Hb. exists (bytes_find data b).
  split; [rewrite get_value_offset_str, Hb by assumption; reflexivity|].
  split; [apply bytes_find_none|].
  intros Hoff.
  assert (H0 : 0 <= bytes_find data b)
    by (destruct (bytes_find_range data b); lia).
  destruct (bytes_find_found data b _ eq_refl H0) as (Hle & Hs & Hmin).
  split; [exact H0|]. split; [|split].
  - apply startswith_app in Hs as [post E].
    assert (L : List.length (skipn (Z.to_nat (bytes_find data b)) data)
                = List.length (b ++ post)) by (rewrite E; reflexivity).
    rewrite length_skipn, length_app in L. unfold len_bytes in *. lia.
  - apply slice_found; [reflexivity | exact H0].
  - intros pre post E.
    destruct (Z.lt_ge_cases (len_bytes pre) (bytes_find data b)) as [Hlt | Hge];
      [|lia].
    exfalso. unfold len_bytes in Hlt.
    assert (Hf := Hmin (List.length pre) ltac:(lia)).
    rewrite E, startswith_at_split in Hf. discriminate.
Qed.

Lemma get_value_offset_first_occurrence_witness :
  exists off,
    get_value_offset sn_image (VStr "534E") = Ok off /\
    (off = -1 <-> ~ contains (ascii_bytes "SN") sn_image) /\
    (off <> -1 ->
     0 <= off /\ off + len_bytes (ascii_bytes "SN") <= len_bytes sn_image /\
     slice sn_image off (len_bytes (ascii_bytes "SN")) = ascii_bytes "SN" /\
     forall pre post, sn_image = pre ++ ascii_bytes "SN" ++ post -> off <= len_bytes pre).
Proof.
  apply (get_value_offset_first_occurrence sn_image "534E" (ascii_bytes "SN")).
  - discriminate.
  - reflexivity.
Defined.

(** *** Hex strings *)

(** [b.hex()]: two lower-case hex digits for each byte. *)
Fixpoint hex_chars (b : bytes) : list ascii :=
  match b with
  | [] => []
  | x :: b' =>
      hex_char (Byte.to_N x / 16) :: hex_char (Byte.to_N x mod 16) :: hex_chars b'
  end.

Definition hex (b : bytes) : string := string_of_list_ascii (hex_chars b).

Lemma fromhex_hex_byte (x : byte) (t : list ascii) :
  fromhex_chars (hex_char (Byte.to_N x / 16) :: hex_char (Byte.to_N x mod 16) :: t)
  = rbind (fromhex_chars t) (fun r => Ok (x :: r)).
Proof. destruct x; reflexivity. Qed.

Lemma fromhex_hex (b : bytes) : fromhex (hex b) = Ok b.
Proof.
  unfold fromhex, hex. rewrite list_ascii_of_string_of_list_ascii.
  induction b as [|x b IH]; [reflexivity|].
  simpl hex_chars. rewrite fromhex_hex_byte, IH. reflexivity.
Qed.

(** X7: a tag may be given as bytes or as a hex string, with the same answer
    on every buffer: the hex spelling of any bytes decodes back to them, and
    [get_value_offset] gives for it what it gives for the bytes. *)
Theorem get_value_offset_hex (data b : bytes) :
  fromhex (hex b) = Ok b /\
  get_value_offset data (VStr (hex b)) = get_value_offset data (VBytes b).
Proof.
  split; [apply fromhex_hex|].
  destruct data as [|x data]; [reflexivity|].
  rewrite get_value_offset_str, get_value_offset_bytes, fromhex_hex by discriminate.
  reflexivity.
Qed.

(** ** More on the header *)

Lemma find_after_zeros (n : nat) (sub rest : bytes) (h : byte) (sub' : bytes) :
  sub = h :: sub' -> h <> x00 ->
  bytes_find (zeros n ++ sub ++ rest) sub = Z.of_nat n.
Proof.
  intros -> Hh. unfold bytes_find.
  assert (G : forall i, find_from (h :: sub') (zeros n ++ (h :: sub') ++ rest) i
                        = i + Z.of_nat n).
  { induction n as [|n IH]; intros i.
    - assert (S : startswith (h :: sub') ((h :: sub') ++ rest) = true)
        by (apply startswith_app; eauto).
      change (zeros 0 ++ (h :: sub') ++ rest) with ((h :: sub') ++ rest).
      destruct rest; simpl in *; rewrite S; lia.
    - change (zeros (S n)) with (x00 :: zeros n). simpl app.
      cbn [find_from startswith].
      destruct (byte_eqb h x00) eqn:E.
      + apply byte_eqb_eq in E. contradiction.
      + simpl andb. cbv iota. rewrite IH. lia. }
  rewrite G. lia.
Qed.

(** X8: the offset where the null bytes end.  For an image that is [n] null
    bytes, then the magic, then anything, [parse_null_bytes] returns [n]. *)
Theorem parse_null_bytes_after_zeros (fs : string -> option bytes)
        (image : string) (n : nat) (rest : bytes) :
  fs image = Some (zeros n ++ header_literal ++ rest) ->
  parse_null_bytes fs image = Ok (Z.of_nat n).
Proof.
  intros Hfs.
  assert (Hin : contains header_literal (zeros n ++ header_literal ++ rest))
    by (exists (zeros n), rest; reflexivity).
  destruct (parse_null_bytes_found fs image _ Hfs Hin) as (_ & _ & _ & ->).
  rewrite (find_after_zeros n header_literal rest "H"%byte
             (list_byte_of_string "isi-NV-Partition"));
    [reflexivity | reflexivity | discriminate].
Qed.

Lemma parse_null_bytes_after_zeros_witness :
  parse_null_bytes (one_file "nvme.img" (zeros 4 ++ header_literal ++ sn_record))
                   "nvme.img" = Ok 4.
Proof.
  apply (parse_null_bytes_after_zeros
           (one_file "nvme.img" (zeros 4 ++ header_literal ++ sn_record))
           "nvme.img" 4 sn_record).
  reflexivity.
Defined.

(** X9: the "expected ... but got ..." error of [parse_null_bytes] is never
    raised: the 17 bytes it reads are those the search has just found, so
    for every file system and path the outcome is an offset, the error of
    a file that cannot be opened, the "too short" error or the error of the
    seek. *)
Theorem parse_null_bytes_outcomes (fs : string -> option bytes) (image : string) :
  (parse_null_bytes fs image = Raise FileNotFoundError \/
   parse_null_bytes fs image = Raise (RuntimeError msg_too_short) \/
   parse_null_bytes fs image = Raise (OSError EINVAL) \/
   exists off, 0 <= off /\ parse_null_bytes fs image = Ok off) /\
  forall hdr,
    parse_null_bytes fs image
    <> Raise (RuntimeError
                ("Expected " ++ MAGIC ++ " but got " ++ bytes_repr hdr ++ "!")%string).
Proof.
  assert (H : parse_null_bytes fs image = Raise FileNotFoundError \/
              parse_null_bytes fs image = Raise (RuntimeError msg_too_short) \/
              parse_null_bytes fs image = Raise (OSError EINVAL) \/
              exists off, 0 <= off /\ parse_null_bytes fs image = Ok off).
  { destruct (fs image) as [c|] eqn:Hfs.
    2:{ left. unfold parse_null_bytes, with_open. rewrite Hfs. reflexivity. }
    destruct c as [|x c].
    { right; left. unfold parse_null_bytes, with_open. rewrite Hfs. reflexivity. }
    destruct (bytes_find_range (x :: c) header_literal) as [E | E].
    - right; right; left.
      rewrite (parse_null_bytes_nonempty fs image (x :: c)) by (auto; discriminate).
      cbv zeta. rewrite E. reflexivity.
    - right; right; right. exists (bytes_find (x :: c) header_literal).
      split; [lia|].
      apply (parse_null_bytes_found fs image (x :: c) Hfs).
      apply contains_skipn.
      destruct (bytes_find_found (x :: c) header_literal _ eq_refl (proj1 E))
        as (Hle & Hs & _).
      exists (Z.to_nat (bytes_find (x :: c) header_literal)).
      split; [unfold len_bytes in Hle; lia | exact Hs]. }
  split; [exact H|].
  intros hdr E. rewrite E in H.
  destruct H as [H | [H | [H | [off [_ H]]]]]; discriminate H.
Qed.

(** ** More on the loop *)

(** X10: a key that is not hex stops the loop.  Over a buffer that is not
    empty the turn of such a key raises the "type" error and prints nothing,
    and no later key is looked at. *)
Theorem scan_stops_at_bad_key (fs : string -> option bytes) (argv : list string)
        (data : bytes) (nvme key : string) (rest : list string) (out : stdout)
        (e : exn) :
  data <> [] ->
  fromhex key = Raise e ->
  scan fs argv data nvme (key :: rest) out = (Raise (RuntimeError msg_bad_type), out).
Proof.
  intros Hd Hk. rewrite scan_cons. unfold scan_entry, bind, lift.
  rewrite get_value_offset_str, Hk by assumption. reflexivity.
Qed.

Lemma scan_stops_at_bad_key_witness :
  scan (one_file "nvme.img" sn_image) ["nvme-huawei.py"; "-r"; "nvme.img"]
       sn_image "nvme.img" ["534"; "534E"] []
  = (Raise (RuntimeError msg_bad_type), []).
Proof.
  apply (scan_stops_at_bad_key _ _ _ _ _ _ _ ValueError).
  - discriminate.
  - reflexivity.
Defined.

Definition record_name (rec : record) : string :=
  let '(name, _, _, _) := rec in name.
Definition record_offset (rec : record) : Z :=
  let '(_, _, off, _) := rec in off.
Definition record_length (rec : record) : Z :=
  let '(_, _, _, length) := rec in length.

(** The loop over entries of the catalog, on an image that is not empty:
    one record for each, under the name of the entry, with the offset of the
    name in the image and the length of the key. *)
Lemma scan_catalog_records (fs : string -> option bytes) (argv : list string)
      (data : bytes) (nvme : string) (catalog : list (string * string)) :
  fs nvme = Some data -> data <> [] ->
  incl catalog VALUES ->
  forall out, exists recs,
    scan fs argv data nvme (keys catalog) out
    = (Ok tt, out ++ map (record_line argv) recs) /\
    map record_name recs = map snd catalog /\
    map record_offset recs
    = map (fun kv => bytes_find data (ascii_bytes (snd kv))) catalog /\
    map record_length recs = map (fun kv => len_str (fst kv)) catalog.
Proof.
  intros Hfs Hdata. induction catalog as [|[key name] catalog IH]; intros Hincl out.
  - exists []. simpl. rewrite app_nil_r. auto.
  - assert (Hin : In (key, name) VALUES) by (apply Hincl; left; reflexivity).
    destruct (VALUES_entry key name Hin) as (Hb & Hn & Hd & Hl & Hk & Hr).
    simpl keys. rewrite scan_cons.
    rewrite (scan_entry_unfold fs argv data nvme key (ascii_bytes name) name)
      by assumption.
    destruct (parse_string_ok fs nvme data (bytes_find data (ascii_bytes name))
                (MAX_GAP - len_str key) (len_bytes (ascii_bytes name)) Hfs)
      as [res ->].
    + destruct (bytes_find_range data (ascii_bytes name)); unfold MAX_GAP; lia.
    + destruct (IH (fun x Hx => Hincl x (or_intror Hx))
                   (out ++ [record_line argv
                              (name, res, bytes_find data (ascii_bytes name),
                               len_str key)]))
        as (recs & Hscan & Hnames & Hoffs & Hlens).
      exists ((name, res, bytes_find data (ascii_bytes name), len_str key) :: recs).
      rewrite Hscan. simpl. rewrite <- app_assoc, Hnames, Hoffs, Hlens.
      auto.
Qed.

(** ** More on [main] *)

Definition reads_image (argv : list string) (prog path : string) : Prop :=
  argv = [prog; "-r"; path] \/ exists x, argv = [prog; "-r"; x; path].

(** X11: with fewer than two arguments after the program name, [main] prints
    the banner, the error and the help, and exits with status 0; no file is
    opened, whatever the file system. *)
Theorem main_too_few_arguments (fs : string -> option bytes) (argv : list string) :
  len_argv argv < 3 ->
  main fs argv []
  = (Raise (SystemExit 0),
     [banner; ("ERROR: Expected more arguments..." ++ nl)%string; help_text]).
Proof.
  intros H. unfold main, bind, print, show_help, print, raise.
  apply Z.ltb_lt in H. rewrite H. reflexivity.
Qed.

Lemma main_too_few_arguments_witness :
  main (one_file "nvme.img" sn_image) ["nvme-huawei.py"; "-r"] []
  = (Raise (SystemExit 0),
     [banner; ("ERROR: Expected more arguments..." ++ nl)%string; help_text]).
Proof.
  apply main_too_few_arguments. reflexivity.
Defined.

(** X12: when the first argument is not [-r], [main] names it as an unknown
    option, prints the help and ends normally; no file is opened. *)
Theorem main_unknown_option (fs : string -> option bytes) (argv : list string) :
  3 <= len_argv argv ->
  argv_at argv 1 <> "-r" ->
  main fs argv []
  = (Ok tt,
     [banner; ("ERROR: Unknown option: " ++ argv_at argv 1 ++ nl)%string; help_text]).
Proof.
  intros Hlen Hopt. unfold main, bind, print, show_help, print, ret.
  apply Z.ltb_ge in Hlen. rewrite Hlen.
  apply String.eqb_neq in Hopt. rewrite Hopt. reflexivity.
Qed.

Lemma main_unknown_option_witness :
  main (one_file "nvme.img" sn_image) ["nvme-huawei.py"; "-x"; "nvme.img"] []
  = (Ok tt, [banner; ("ERROR: Unknown option: -x" ++ nl)%string; help_text]).
Proof.
  apply (main_unknown_option (one_file "nvme.img" sn_image)
                             ["nvme-huawei.py"; "-x"; "nvme.img"]).
  - vm_compute. discriminate.
  - discriminate.
Defined.

(** X13: with [-r] and four arguments or more after the program name, no
    path is bound: [main] stops with [UnboundLocalError] after the banner. *)
Theorem main_too_many_arguments (fs : string -> option bytes) (argv : list string) :
  5 <= len_argv argv ->
  argv_at argv 1 = "-r" ->
  main fs argv [] = (Raise UnboundLocalError, [banner]).
Proof.
  intros Hlen Hopt. unfold main, bind, print, ret, raise.
  destruct (len_argv argv <? 3) eqn:E3; [apply Z.ltb_lt in E3; lia|].
  rewrite Hopt, String.eqb_refl.
  destruct (len_argv argv =? 4) eqn:E4; [apply Z.eqb_eq in E4; lia|].
  destruct (len_argv argv =? 3) eqn:E5; [apply Z.eqb_eq in E5; lia|].
  reflexivity.
Qed.

Lemma main_too_many_arguments_witness :
  main (one_file "nvme.img" sn_image)
       ["nvme-huawei.py"; "-r"; "-d"; "-v"; "nvme.img"] []
  = (Raise UnboundLocalError, [banner]).
Proof.
  apply main_too_many_arguments.
  - vm_compute. discriminate.
  - reflexivity.
Defined.

(** X14: an image without the magic gives no record.  In either mode, a run
    on such an image prints the banner alone and stops with the error of the
    header step: "too short" for an empty image, the error of the seek
    otherwise. *)
Theorem main_without_header (fs : string -> option bytes) (argv : list string)
        (prog path : string) (data : bytes) :
  reads_image argv prog path ->
  fs path = Some data ->
  ~ contains header_literal data ->
  main fs argv []
  = (Raise (if len_bytes data <=? 0 then RuntimeError msg_too_short
            else OSError EINVAL),
     [banner]).
Proof.
  intros Hargv Hfs Hno. rewrite (main_read fs argv prog path Hargv).
  rewrite (read_all_whole fs path data Hfs).
  destruct data as [|x data].
  - unfold parse_null_bytes, with_open. rewrite Hfs. reflexivity.
  - rewrite (parse_null_bytes_nonempty fs path (x :: data)) by (auto; discriminate).
    apply bytes_find_none in Hno. cbv zeta. rewrite Hno.
    rewrite len_bytes_nonempty by discriminate. reflexivity.
Qed.

Lemma main_without_header_witness :
  main (one_file "nvme.img" sn_record) ["nvme-huawei.py"; "-r"; "-d"; "nvme.img"] []
  = (Raise (OSError EINVAL), [banner]).
Proof.
  apply (main_without_header (one_file "nvme.img" sn_record) _
                             "nvme-huawei.py" "nvme.img" sn_record).
  - right. exists "-d". reflexivity.
  - reflexivity.
  - apply bytes_find_none. vm_compute. reflexivity.
Defined.

(** X15: an image with the magic always gives the whole table.  In either
    mode the run ends normally, whatever else the image holds, and prints
    the banner, one line for each of the 20 entries of the catalog, in the
    order of the catalog, and the empty line; the record of an entry has
    the name of the entry, the answer of the search for the bytes of that
    name, and the length of the hex key. *)
Theorem main_with_header (fs : string -> option bytes) (argv : list string)
        (prog path : string) (data : bytes) :
  reads_image argv prog path ->
  fs path = Some data ->
  contains header_literal data ->
  exists recs,
    main fs argv [] = (Ok tt, banner :: map (record_line argv) recs ++ [""]) /\
    List.length recs = 20%nat /\
    map record_name recs = map snd VALUES /\
    map record_offset recs
    = map (fun kv => bytes_find data (ascii_bytes (snd kv))) VALUES /\
    map record_length recs = map (fun kv => len_str (fst kv)) VALUES.
Proof.
  intros Hargv Hfs Hin. rewrite (main_read fs argv prog path Hargv).
  rewrite (read_all_whole fs path data Hfs).
  destruct (parse_null_bytes_found fs path data Hfs Hin) as (_ & _ & _ & ->).
  assert (Hne : data <> [])
    by (apply (contains_nonempty header_literal); [discriminate | assumption]).
  destruct (scan_catalog_records fs argv data path VALUES Hfs Hne
                                 (incl_refl _) [banner])
    as (recs & -> & Hnames & Hoffs & Hlens).
  exists recs. split; [|split; [|auto]].
  - reflexivity.
  - rewrite <- (length_map record_name), Hnames. reflexivity.
Qed.

Lemma main_with_header_witness :
  exists recs,
    main (one_file "nvme.img" sn_image) ["nvme-huawei.py"; "-r"; "nvme.img"] []
    = (Ok tt, banner :: map normal_line_of recs ++ [""]) /\
    map record_name recs = map snd VALUES.
Proof.
  destruct (main_with_header (one_file "nvme.img" sn_image)
              ["nvme-huawei.py"; "-r"; "nvme.img"] "nvme-huawei.py" "nvme.img"
              sn_image)
    as (recs & Hmain & _ & Hnames & _).
  - left. reflexivity.
  - reflexivity.
  - exists [], (skipn 17 sn_image). reflexivity.
  - exists recs. split; [|exact Hnames].
    rewrite Hmain.
    rewrite (map_ext _ _ (record_line_normal "nvme-huawei.py" "nvme.img")).
    reflexivity.
Defined.

(** The loop looks at the arguments only to choose the format of the lines. *)
Lemma scan_debug_on (fs : string -> option bytes) (argv1 argv2 : list string)
      (data : bytes) (nvme : string) (catalog : list string) :
  debug_on argv1 = debug_on argv2 ->
  forall out, scan fs argv1 data nvme catalog out = scan fs argv2 data nvme catalog out.
Proof.
  intros H. induction catalog as [|key catalog IH]; intros out; [reflexivity|].
  rewrite !scan_cons.
  assert (E : scan_entry fs argv1 data nvme key out
              = scan_entry fs argv2 data nvme key out)
    by (unfold scan_entry; rewrite H; reflexivity).
  rewrite E. destruct (scan_entry fs argv2 data nvme key out) as [[u|e] out'];
    [apply IH | reflexivity].
Qed.

(** X16: a second argument that is not [-d] is ignored.  The run
    [-r x path] is the run [-r path]: same outcome, same lines, in the plain
    format. *)
Theorem main_ignores_second_argument (fs : string -> option bytes)
        (prog x path : string) :
  x <> "-d" ->
  main fs [prog; "-r"; x; path] [] = main fs [prog; "-r"; path] [].
Proof.
  intros Hx.
  rewrite (main_read fs [prog; "-r"; x; path] prog path) by (right; eauto).
  rewrite (main_read fs [prog; "-r"; path] prog path) by (left; reflexivity).
  destruct (with_open fs path read_all) as [data|e]; [|reflexivity].
  destruct (parse_null_bytes fs path); [|reflexivity].
  rewrite (scan_debug_on fs [prog; "-r"; x; path] [prog; "-r"; path]);
    [reflexivity|].
  unfold debug_on. cbn [len_argv List.length argv_at nth].
  apply String.eqb_neq in Hx. rewrite Hx. reflexivity.
Qed.

Lemma main_ignores_second_argument_witness :
  main (one_file "nvme.img" sn_image) ["nvme-huawei.py"; "-r"; "-D"; "nvme.img"] []
  = main (one_file "nvme.img" sn_image) ["nvme-huawei.py"; "-r"; "nvme.img"] [].
Proof.
  apply main_ignores_second_argument. discriminate.
Defined.
